(** * lab_77.py: the [MyFile] class

    A shallow embedding of the class [MyFile] of [lab_77.py] (construction,
    [read], [write], [read_url], [count_urls]) together with the part of the
    Python runtime the class relies on: [str] values, the text codecs, text
    files with newline translation, the exception hierarchy and the regular
    expressions handed to [re.findall].  The rest of the class ([write_url],
    the context manager, [__repr__], [__del__]) and the console menu of the
    file follow the class. *)

From Stdlib Require Import NArith ZArith Lia List.
From Stdlib.Strings Require Import Ascii String Byte.
From Stdlib Require DecimalString.
From stdpp Require Import base option list gmap.

Local Open Scope N_scope.

(** ** Python values *)

(** A [str] is a sequence of Unicode code points; [bytes] is a sequence of
    octets. *)
Abbreviation str := (list N).
Abbreviation bytes := (list byte).

(** ASCII literals of the source are written as Rocq strings. *)
Definition pystr (s : string) : str :=
  map N_of_ascii (list_ascii_of_string s).

Definition QUOT : N := 0x22.   (* the double quote *)
Definition APOS : N := 0x27.   (* the single quote *)
Definition CR : N := 0x0D.
Definition LF : N := 0x0A.

(** [str.lower()].  Upper-case ASCII letters go to lower case.  Two code
    points outside ASCII have a lower-case form that contains an ASCII
    letter: U+0130 (to [i] followed by U+0307) and U+212A (to [k]).  Every
    other code point outside ASCII is kept: Python sends it to code points
    outside ASCII again, and the class only ever compares the result with
    the ASCII words [read], [write], [append] and [url]. *)
Definition lower_char (c : N) : str :=
  if (0x41 <=? c) && (c <=? 0x5A) then [c + 0x20]
  else if c =? 0x130 then [0x69; 0x307]
  else if c =? 0x212A then [0x6B]
  else [c].

Definition lower (s : str) : str := flat_map lower_char s.

(** [s.startswith(p)] *)
Fixpoint startswith (s p : str) {struct p} : bool :=
  match p, s with
  | [], _ => true
  | _ :: _, [] => false
  | x :: p', y :: s' => (x =? y) && startswith s' p'
  end.

(** ** Text codecs *)

Module Codec.

(** The [errors] argument of [bytes.decode]. *)
Inductive errors := Strict | Replace.

Definition is_continuation (b : N) : bool := (0x80 <=? b) && (b <? 0xC0).

Definition REPLACEMENT : N := 0xFFFD.

(** CPython's UTF-8 decoder over octet values.  In [Strict] mode the first
    ill-formed sequence makes it fail ([UnicodeDecodeError]); in [Replace]
    mode the ill-formed bytes consumed so far become one U+FFFD and
    decoding resumes at the offending byte. *)
Fixpoint utf8_decode (h : errors) (bs : list N) : option str :=
  let bad (k : option str) :=
    match h with Strict => None | Replace => cons REPLACEMENT <$> k end in
  match bs with
  | [] => Some []
  | b0 :: r0 =>
    if b0 <? 0x80 then cons b0 <$> utf8_decode h r0
    else if b0 <? 0xC2 then bad (utf8_decode h r0)
    else if b0 <? 0xE0 then
      match r0 with
      | [] => bad (Some [])
      | b1 :: r1 =>
        if is_continuation b1
        then cons ((b0 - 0xC0) * 64 + (b1 - 0x80)) <$> utf8_decode h r1
        else bad (utf8_decode h r0)
      end
    else if b0 <? 0xF0 then
      match r0 with
      | [] => bad (Some [])
      | b1 :: r1 =>
        if negb (is_continuation b1)
           || (if b1 <? 0xA0 then b0 =? 0xE0 else b0 =? 0xED)
        then bad (utf8_decode h r0)
        else
          match r1 with
          | [] => bad (Some [])
          | b2 :: r2 =>
            if is_continuation b2
            then cons ((b0 - 0xE0) * 4096 + (b1 - 0x80) * 64 + (b2 - 0x80))
                   <$> utf8_decode h r2
            else bad (utf8_decode h r1)
          end
      end
    else if b0 <? 0xF5 then
      match r0 with
      | [] => bad (Some [])
      | b1 :: r1 =>
        if negb (is_continuation b1)
           || (if b1 <? 0x90 then b0 =? 0xF0 else b0 =? 0xF4)
        then bad (utf8_decode h r0)
        else
          match r1 with
          | [] => bad (Some [])
          | b2 :: r2 =>
            if negb (is_continuation b2) then bad (utf8_decode h r1)
            else
              match r2 with
              | [] => bad (Some [])
              | b3 :: r3 =>
                if is_continuation b3
                then cons ((b0 - 0xF0) * 262144 + (b1 - 0x80) * 4096
                           + (b2 - 0x80) * 64 + (b3 - 0x80))
                       <$> utf8_decode h r3
                else bad (utf8_decode h r2)
              end
          end
      end
    else bad (utf8_decode h r0)
  end.

(** The UTF-8 encoder; surrogates cannot be encoded
    ([UnicodeEncodeError]). *)
Definition utf8_encode_char (c : N) : option (list N) :=
  if c <? 0x80 then Some [c]
  else if c <? 0x800 then Some [0xC0 + c / 64; 0x80 + c mod 64]
  else if c <? 0x10000 then
    if (0xD800 <=? c) && (c <? 0xE000) then None
    else Some [0xE0 + c / 4096; 0x80 + (c / 64) mod 64; 0x80 + c mod 64]
  else if c <? 0x110000 then
    Some [0xF0 + c / 262144; 0x80 + (c / 4096) mod 64;
          0x80 + (c / 64) mod 64; 0x80 + c mod 64]
  else None.

Fixpoint utf8_encode (s : str) : option (list N) :=
  match s with
  | [] => Some []
  | c :: r =>
    match utf8_encode_char c, utf8_encode r with
    | Some a, Some b => Some (a ++ b)
    | _, _ => None
    end
  end.

(** Single-byte code pages: the upper halves of the decoding tables of
    [encodings/cp1251.py] and [encodings/koi8_r.py]; [None] is an
    undefined position. *)
Definition cp1251_table : list (option N) :=
[ Some 0x0402; Some 0x0403; Some 0x201A; Some 0x0453; Some 0x201E; Some 0x2026; Some 0x2020; Some 0x2021;
  Some 0x20AC; Some 0x2030; Some 0x0409; Some 0x2039; Some 0x040A; Some 0x040C; Some 0x040B; Some 0x040F;
  Some 0x0452; Some 0x2018; Some 0x2019; Some 0x201C; Some 0x201D; Some 0x2022; Some 0x2013; Some 0x2014;
  None; Some 0x2122; Some 0x0459; Some 0x203A; Some 0x045A; Some 0x045C; Some 0x045B; Some 0x045F;
  Some 0x00A0; Some 0x040E; Some 0x045E; Some 0x0408; Some 0x00A4; Some 0x0490; Some 0x00A6; Some 0x00A7;
  Some 0x0401; Some 0x00A9; Some 0x0404; Some 0x00AB; Some 0x00AC; Some 0x00AD; Some 0x00AE; Some 0x0407;
  Some 0x00B0; Some 0x00B1; Some 0x0406; Some 0x0456; Some 0x0491; Some 0x00B5; Some 0x00B6; Some 0x00B7;
  Some 0x0451; Some 0x2116; Some 0x0454; Some 0x00BB; Some 0x0458; Some 0x0405; Some 0x0455; Some 0x0457;
  Some 0x0410; Some 0x0411; Some 0x0412; Some 0x0413; Some 0x0414; Some 0x0415; Some 0x0416; Some 0x0417;
  Some 0x0418; Some 0x0419; Some 0x041A; Some 0x041B; Some 0x041C; Some 0x041D; Some 0x041E; Some 0x041F;
  Some 0x0420; Some 0x0421; Some 0x0422; Some 0x0423; Some 0x0424; Some 0x0425; Some 0x0426; Some 0x0427;
  Some 0x0428; Some 0x0429; Some 0x042A; Some 0x042B; Some 0x042C; Some 0x042D; Some 0x042E; Some 0x042F;
  Some 0x0430; Some 0x0431; Some 0x0432; Some 0x0433; Some 0x0434; Some 0x0435; Some 0x0436; Some 0x0437;
  Some 0x0438; Some 0x0439; Some 0x043A; Some 0x043B; Some 0x043C; Some 0x043D; Some 0x043E; Some 0x043F;
  Some 0x0440; Some 0x0441; Some 0x0442; Some 0x0443; Some 0x0444; Some 0x0445; Some 0x0446; Some 0x0447;
  Some 0x0448; Some 0x0449; Some 0x044A; Some 0x044B; Some 0x044C; Some 0x044D; Some 0x044E; Some 0x044F ].

Definition koi8_r_table : list (option N) :=
[ Some 0x2500; Some 0x2502; Some 0x250C; Some 0x2510; Some 0x2514; Some 0x2518; Some 0x251C; Some 0x2524;
  Some 0x252C; Some 0x2534; Some 0x253C; Some 0x2580; Some 0x2584; Some 0x2588; Some 0x258C; Some 0x2590;
  Some 0x2591; Some 0x2592; Some 0x2593; Some 0x2320; Some 0x25A0; Some 0x2219; Some 0x221A; Some 0x2248;
  Some 0x2264; Some 0x2265; Some 0x00A0; Some 0x2321; Some 0x00B0; Some 0x00B2; Some 0x00B7; Some 0x00F7;
  Some 0x2550; Some 0x2551; Some 0x2552; Some 0x0451; Some 0x2553; Some 0x2554; Some 0x2555; Some 0x2556;
  Some 0x2557; Some 0x2558; Some 0x2559; Some 0x255A; Some 0x255B; Some 0x255C; Some 0x255D; Some 0x255E;
  Some 0x255F; Some 0x2560; Some 0x2561; Some 0x0401; Some 0x2562; Some 0x2563; Some 0x2564; Some 0x2565;
  Some 0x2566; Some 0x2567; Some 0x2568; Some 0x2569; Some 0x256A; Some 0x256B; Some 0x256C; Some 0x00A9;
  Some 0x044E; Some 0x0430; Some 0x0431; Some 0x0446; Some 0x0434; Some 0x0435; Some 0x0444; Some 0x0433;
  Some 0x0445; Some 0x0438; Some 0x0439; Some 0x043A; Some 0x043B; Some 0x043C; Some 0x043D; Some 0x043E;
  Some 0x043F; Some 0x044F; Some 0x0440; Some 0x0441; Some 0x0442; Some 0x0443; Some 0x0436; Some 0x0432;
  Some 0x044C; Some 0x044B; Some 0x0437; Some 0x0448; Some 0x044D; Some 0x0449; Some 0x0447; Some 0x044A;
  Some 0x042E; Some 0x0410; Some 0x0411; Some 0x0426; Some 0x0414; Some 0x0415; Some 0x0424; Some 0x0413;
  Some 0x0425; Some 0x0418; Some 0x0419; Some 0x041A; Some 0x041B; Some 0x041C; Some 0x041D; Some 0x041E;
  Some 0x041F; Some 0x042F; Some 0x0420; Some 0x0421; Some 0x0422; Some 0x0423; Some 0x0416; Some 0x0412;
  Some 0x042C; Some 0x042B; Some 0x0417; Some 0x0428; Some 0x042D; Some 0x0429; Some 0x0427; Some 0x042A ].

(** A charmap codec: ASCII is kept, the upper half goes through the
    table. *)
Definition charmap_char (table : list (option N)) (b : N) : option N :=
  if b <? 0x80 then Some b
  else mjoin (table !! N.to_nat (b - 0x80)).

Fixpoint charmap_decode (table : list (option N)) (bs : list N) : option str :=
  match bs with
  | [] => Some []
  | b :: r =>
    match charmap_char table b with
    | Some c => cons c <$> charmap_decode table r
    | None => None
    end
  end.

(** ISO-8859-1 maps every octet to the code point of the same value. *)
Definition latin_1_decode (bs : list N) : option str := Some bs.

(** The codec names used by the class. *)
Inductive encoding := utf_8 | cp1251 | koi8_r | iso_8859_1.

(** [content.decode(encoding)]: [None] stands for
    [UnicodeDecodeError]. *)
Definition decode (e : encoding) (content : bytes) : option str :=
  let octets := map Byte.to_N content in
  match e with
  | utf_8 => utf8_decode Strict octets
  | cp1251 => charmap_decode cp1251_table octets
  | koi8_r => charmap_decode koi8_r_table octets
  | iso_8859_1 => latin_1_decode octets
  end.

(** [content.decode('utf-8', errors='replace')] never fails. *)
Definition decode_utf8_replace (content : bytes) : str :=
  default [] (utf8_decode Replace (map Byte.to_N content)).

Definition byte_of_N (n : N) : byte := default x00 (Byte.of_N n).

(** [text.encode('utf-8')]: [None] stands for [UnicodeEncodeError]. *)
Definition encode_utf8 (text : str) : option bytes :=
  map byte_of_N <$> utf8_encode text.

End Codec.

(** ** Regular expressions

    The fragment of Python's [re] that the patterns of [count_urls] use,
    matched by backtracking, always under [re.IGNORECASE]. *)

Module Re.

Inductive item :=
| Lit (c : N)        (* a character listed in a class *)
| Space.             (* \s *)

Inductive regex :=
| Eps
| Char (c : N)                                  (* a literal character *)
| Class (negated : bool) (items : list item)    (* [...] and [^...] *)
| Cat (r1 r2 : regex)
| Opt (r : regex)                               (* r?  greedy *)
| Plus (r : regex)                              (* r+  greedy *)
| Group (r : regex).                            (* (r) capturing *)

(** [\s] on [str] patterns: the Unicode white space characters. *)
Definition is_space (x : N) : bool :=
  ((0x09 <=? x) && (x <=? 0x0D)) || ((0x1C <=? x) && (x <=? 0x20))
  || (x =? 0x85) || (x =? 0xA0) || (x =? 0x1680)
  || ((0x2000 <=? x) && (x <=? 0x200A))
  || (x =? 0x2028) || (x =? 0x2029) || (x =? 0x202F) || (x =? 0x205F)
  || (x =? 0x3000).

Definition is_upper (c : N) : bool := (0x41 <=? c) && (c <=? 0x5A).
Definition is_lower (c : N) : bool := (0x61 <=? c) && (c <=? 0x7A).

(** Does the ASCII pattern character [c] match the input character [x]
    when case is ignored?  Besides the other case of an ASCII letter, three
    letters have further equivalents: U+017F for [s], U+212A for [k],
    U+0130 and U+0131 for [i]. *)
Definition ignorecase_eq (c x : N) : bool :=
  let lc := if is_upper c then c + 0x20 else c in
  (x =? c)
  || (is_lower lc && ((x =? lc) || (x =? lc - 0x20)))
  || ((lc =? 0x73) && (x =? 0x17F))
  || ((lc =? 0x6B) && (x =? 0x212A))
  || ((lc =? 0x69) && ((x =? 0x130) || (x =? 0x131))).

Definition item_matches (i : item) (x : N) : bool :=
  match i with
  | Lit c => ignorecase_eq c x
  | Space => is_space x
  end.

Definition in_class (negated : bool) (items : list item) (x : N) : bool :=
  xorb negated (existsb (fun i => item_matches i x) items).

(** The state of a match attempt is the text still to be read and the
    text captured by group 1, if the group has been closed. *)
Definition cont (X : Type) := str -> option str -> option X.

Fixpoint run {X : Type} (r : regex) (s : str) (g : option str) (k : cont X)
  : option X :=
  match r with
  | Eps => k s g
  | Char c =>
    match s with
    | x :: s' => if ignorecase_eq c x then k s' g else None
    | [] => None
    end
  | Class negated items =>
    match s with
    | x :: s' => if in_class negated items x then k s' g else None
    | [] => None
    end
  | Cat r1 r2 => run r1 s g (fun s' g' => run r2 s' g' k)
  | Opt r1 =>
    match run r1 s g k with
    | Some x => Some x
    | None => k s g
    end
  | Plus r1 =>
    (fix again (fuel : nat) (s0 : str) (g0 : option str) : option X :=
       run r1 s0 g0 (fun s' g' =>
         match fuel with
         | S fuel' =>
           if (length s' <? length s0)%nat then
             match again fuel' s' g' with
             | Some x => Some x
             | None => k s' g'
             end
           else k s' g'
         | O => k s' g'
         end)) (length s) s g
  | Group r1 =>
    run r1 s g (fun s' _ => k s' (Some (take (length s - length s') s)))
  end.

Fixpoint has_group (r : regex) : bool :=
  match r with
  | Eps | Char _ | Class _ _ => false
  | Cat r1 r2 => has_group r1 || has_group r2
  | Opt r1 | Plus r1 => has_group r1
  | Group _ => true
  end.

(** A match starting at the head of [s]: the number of characters it
    spans and the string [findall] reports for it (group 1 when the
    pattern has a group, the whole match otherwise). *)
Definition match_here (r : regex) (s : str) : option (nat * str) :=
  run r s None (fun s' g =>
    let n := (length s - length s')%nat in
    Some (n, if has_group r then default [] g else take n s)).

(** [re.findall]: matches are searched from left to right and do not
    overlap; [skip] counts the characters of the current position that the
    previous match has already consumed. *)
Fixpoint findall_from (r : regex) (s : str) (skip : nat) : list str :=
  match s with
  | [] =>
    match skip, match_here r [] with
    | O, Some (_, t) => [t]
    | _, _ => []
    end
  | _ :: s' =>
    match skip with
    | S n => findall_from r s' n
    | O =>
      match match_here r s with
      | Some (len, t) => t :: findall_from r s' (pred len)
      | None => findall_from r s' 0
      end
    end
  end.

Definition findall (r : regex) (s : str) : list str := findall_from r s 0.

(** Pattern building. *)
Definition seq (rs : list regex) : regex := foldr Cat Eps rs.
Definition lit (s : string) : regex := seq (map Char (pystr s)).

End Re.

(** ** Exceptions *)

Inductive builtin_class :=
| BaseException | Exception | KeyboardInterrupt | AttributeError
| ValueError | UnicodeError | UnicodeDecodeError | UnicodeEncodeError
| OSError | FileNotFoundError | PermissionError | IsADirectoryError
| NotADirectoryError | TimeoutError.

(** The classes named in [except] clauses: the built-in ones and the two
    of [urllib.error]. *)
Inductive exc_class :=
| Builtin (c : builtin_class)
| URLError
| HTTPError.

Coercion Builtin : builtin_class >-> exc_class.

(** [IOError] is an alias of [OSError]. *)
Definition IOError : builtin_class := OSError.

#[global] Instance builtin_class_eq_dec : EqDecision builtin_class.
Proof. solve_decision. Defined.

#[global] Instance exc_class_eq_dec : EqDecision exc_class.
Proof. solve_decision. Defined.

(** The direct base class. *)
Definition base (c : exc_class) : option exc_class :=
  match c with
  | Builtin BaseException => None
  | Builtin Exception | Builtin KeyboardInterrupt => Some (Builtin BaseException)
  | Builtin AttributeError | Builtin ValueError | Builtin OSError =>
    Some (Builtin Exception)
  | Builtin UnicodeError => Some (Builtin ValueError)
  | Builtin UnicodeDecodeError | Builtin UnicodeEncodeError =>
    Some (Builtin UnicodeError)
  | Builtin FileNotFoundError | Builtin PermissionError
  | Builtin IsADirectoryError | Builtin NotADirectoryError
  | Builtin TimeoutError | URLError => Some (Builtin OSError)
  | HTTPError => Some URLError
  end.

Fixpoint issubclass_upto (depth : nat) (c d : exc_class) : bool :=
  bool_decide (c = d)
  || match depth, base c with
     | S n, Some b => issubclass_upto n b d
     | _, _ => false
     end.

(** The hierarchy is four levels deep. *)
Definition issubclass : exc_class -> exc_class -> bool := issubclass_upto 4.

(** The texts of the exceptions, kept as the template that produces them
    with the values it interpolates. *)
Inductive message :=
| Text (s : str)                            (* a text produced by the platform *)
| StrOSError (errno : N) (filename : str)   (* str() of an OSError of open() *)
| StrUnicodeError (codec : str)             (* str() of a codec error *)
| StrURLError (reason : message)            (* str() of a URLError *)
| StrHTTPError (code : Z) (reason : message) (* str() of an HTTPError *)
| InvalidMode (mode : str) (valid_modes : list str)     (* line 31 *)
| NotAnUrl (path : str)                                 (* line 35 *)
| ReadNeedsReadMode (mode : str)                        (* line 68 *)
| FileNotFound (path : str)                             (* line 74 *)
| NoReadPermission (path : str)                         (* line 76 *)
| WriteNeedsWriteMode (mode : str)                      (* line 95 *)
| NoWritePermission (path : str)                        (* line 102 *)
| WriteFailed (e : message)                             (* line 104 *)
| ReadUrlNeedsUrlMode (mode : str)                      (* line 120 *)
| HttpFailed (code : Z) (reason : message) (path : str) (* line 147 *)
| UrlFailed (reason : message) (path : str)             (* line 149 *)
| TimedOut (path : str)                                 (* line 151 *)
| ReadUrlFailed (e : message)                           (* line 153 *)
| CountUrlsNeedsUrlMode (mode : str)                    (* line 166 *)
| CountUrlsWarning (e : message).                       (* line 194 *)

(** Exception values.  An [HTTPError] carries [code] and [reason], a
    [URLError] carries [reason]. *)
Inductive exc :=
| Raised (c : builtin_class) (m : message)
| RaisedURLError (reason : message)
| RaisedHTTPError (code : Z) (reason : message).

Definition class_of (e : exc) : exc_class :=
  match e with
  | Raised c _ => Builtin c
  | RaisedURLError _ => URLError
  | RaisedHTTPError _ _ => HTTPError
  end.

Definition isinstance (e : exc) (c : exc_class) : bool :=
  issubclass (class_of e) c.

(** [str(e)], as interpolated by [f"...{e}"]. *)
Definition str_of_exc (e : exc) : message :=
  match e with
  | Raised _ m => m
  | RaisedURLError reason => StrURLError reason
  | RaisedHTTPError code reason => StrHTTPError code reason
  end.

(** ** The platform: files, network, console *)

Inductive platform := Posix | Windows.

(** The modes ['r'], ['w'] and ['a'] of [open]. *)
Inductive open_mode := R | W | A.

(** What a path names.  A path that is not in the file system names
    nothing, and a file can be created there.  [Unopenable] stands for
    everything [open] refuses (a directory, a path below a missing
    directory, ...), with the exception raised for reading and the one
    raised for writing. *)
Inductive entry :=
| Regular (readable writable : bool) (data : bytes)
| Unopenable (on_read on_write : exc).

Record request := {
  req_url : str;
  req_user_agent : str;
  req_timeout : N
}.

(** What [urlopen(req, timeout=10)] followed by [response.read()] gives:
    the body, or the exception raised on the way. *)
Inductive fetched :=
| Response (body : bytes)
| Failure (e : exc).

Inductive event :=
| Opened (p : str) (m : open_mode)
| Closed (p : str)
| Requested (r : request)
| Printed (m : message).

Record world := {
  platform_of : platform;
  fs : gmap str entry;
  net : request -> fetched;
  trace : list event          (* in the order of occurrence *)
}.

Definition with_fs (f : gmap str entry) (w : world) : world :=
  {| platform_of := platform_of w; fs := f; net := net w; trace := trace w |}.

Definition log (e : event) (w : world) : world :=
  {| platform_of := platform_of w; fs := fs w; net := net w;
     trace := trace w ++ [e] |}.

(** A file object, as far as the class looks at it. *)
Record handle := {
  h_path : str;
  h_mode : open_mode;
  h_closed : bool
}.

(** ** Computations that may raise *)

Inductive outcome (X : Type) :=
| Return (x : X)
| Raise (e : exc).

Arguments Return {X} x.
Arguments Raise {X} e.

Definition M (S X : Type) : Type := S -> outcome X * S.

#[global] Instance M_ret {S} : MRet (M S) := fun X x s => (Return x, s).

#[global] Instance M_bind {S} : MBind (M S) := fun X Y k c s =>
  match c s with
  | (Return x, s') => k x s'
  | (Raise e, s') => (Raise e, s')
  end.

Definition raise {S X} (e : exc) : M S X := fun s => (Raise e, s).

(** [except C as e: handler] clauses are tried in order. *)
Definition clause (S X : Type) : Type := exc_class * (exc -> M S X).

Fixpoint dispatch {S X} (clauses : list (clause S X)) (e : exc)
  : option (M S X) :=
  match clauses with
  | [] => None
  | (c, handler) :: rest =>
    if isinstance e c then Some (handler e) else dispatch rest e
  end.

(** [try: body except ...] *)
Definition try_except {S X} (body : M S X) (clauses : list (clause S X))
  : M S X := fun s =>
  match body s with
  | (Return x, s') => (Return x, s')
  | (Raise e, s') =>
    match dispatch clauses e with
    | Some handler => handler s'
    | None => (Raise e, s')
    end
  end.

(** [try: body finally: cleanup] *)
Definition try_finally {S X} (body : M S X) (cleanup : M S unit) : M S X :=
  fun s =>
  let '(r, s') := body s in
  match cleanup s' with
  | (Return _, s'') => (r, s'')
  | (Raise e, s'') => (Raise e, s'')
  end.

(** ** Text files *)

(** Reading in text mode with the default [newline=None]: the line ends
    [\r\n] and [\r] both become [\n]. *)
Fixpoint universal_newlines (s : str) : str :=
  match s with
  | [] => []
  | c :: r =>
    if c =? CR then
      LF :: match r with
            | c' :: r' =>
              if c' =? LF then universal_newlines r' else universal_newlines r
            | [] => []
            end
    else c :: universal_newlines r
  end.

(** Writing in text mode: [\n] becomes [os.linesep]. *)
Definition linesep (p : platform) : str :=
  match p with
  | Posix => [LF]
  | Windows => [CR; LF]
  end.

Definition translate_newlines (p : platform) (s : str) : str :=
  flat_map (fun c => if c =? LF then linesep p else [c]) s.

Definition ENOENT : N := 2.
Definition EACCES : N := 13.

Definition new_handle (p : str) (m : open_mode) : handle :=
  {| h_path := p; h_mode := m; h_closed := false |}.

(** [open(p, m, encoding='utf-8')].  Mode ['w'] truncates, modes ['w'] and
    ['a'] create a missing file.  A path stands for the file it names: two
    spellings of one file are not identified. *)
Definition open (p : str) (m : open_mode) : M world handle := fun w =>
  let opened (f : gmap str entry) :=
    (Return (new_handle p m), log (Opened p m) (with_fs f w)) in
  let denied := (Raise (Raised PermissionError (StrOSError EACCES p)), w) in
  match fs w !! p, m with
  | None, R => (Raise (Raised FileNotFoundError (StrOSError ENOENT p)), w)
  | None, (W | A) => opened (<[p := Regular true true []]> (fs w))
  | Some (Regular r _ _), R => if r then opened (fs w) else denied
  | Some (Regular r wr _), W =>
    if wr then opened (<[p := Regular r wr []]> (fs w)) else denied
  | Some (Regular _ wr _), A => if wr then opened (fs w) else denied
  | Some (Unopenable e _), R => (Raise e, w)
  | Some (Unopenable _ e), (W | A) => (Raise e, w)
  end.

Definition closed_file : exc :=
  Raised ValueError (Text (pystr "I/O operation on closed file.")).

(** [f.read()]: the whole file, decoded as UTF-8. *)
Definition handle_read (f : handle) : M world str := fun w =>
  if h_closed f then (Raise closed_file, w)
  else
    match fs w !! h_path f with
    | Some (Regular _ _ data) =>
      match Codec.decode Codec.utf_8 data with
      | Some text => (Return (universal_newlines text), w)
      | None =>
        (Raise (Raised UnicodeDecodeError (StrUnicodeError (pystr "utf-8"))), w)
      end
    | _ => (Raise (Raised FileNotFoundError (StrOSError ENOENT (h_path f))), w)
    end.

(** [f.write(content)]: the text is encoded as a whole, so that nothing
    is written when it cannot be encoded.  The bytes are put at the end of
    the file at once; Python may keep them in a buffer until [close], which
    every caller in the class reaches before it returns. *)
Definition handle_write (f : handle) (content : str) : M world nat := fun w =>
  if h_closed f then (Raise closed_file, w)
  else
    match Codec.encode_utf8 (translate_newlines (platform_of w) content) with
    | None =>
      (Raise (Raised UnicodeEncodeError (StrUnicodeError (pystr "utf-8"))), w)
    | Some octets =>
      match fs w !! h_path f with
      | Some (Regular r wr data) =>
        (Return (length content),
         with_fs (<[h_path f := Regular r wr (data ++ octets)]> (fs w)) w)
      | _ => (Raise (Raised FileNotFoundError (StrOSError ENOENT (h_path f))), w)
      end
    end.

(** [f.close()] *)
Definition handle_close (f : handle) : M world handle := fun w =>
  (Return {| h_path := h_path f; h_mode := h_mode f; h_closed := true |},
   log (Closed (h_path f)) w).

(** [print(...)] *)
Definition print (m : message) : M world unit := fun w =>
  (Return tt, log (Printed m) w).

(** [urlopen(req, timeout=...)] and [response.read()] inside the [with]
    block. *)
Definition urlopen_read (rq : request) : M world bytes := fun w =>
  match net w rq with
  | Response body => (Return body, log (Requested rq) w)
  | Failure e => (Raise e, log (Requested rq) w)
  end.

(** ** The class [MyFile] *)

Module MyFile.

(** The attributes [self.path], [self.mode] and [self.file]. *)
Record t := {
  path : str;
  mode : str;
  file : option handle
}.

(** A method runs on the object and the platform. *)
Definition state : Type := t * world.

Definition get_self : M state t := fun s => (Return (fst s), s).

Definition set_file (f : option handle) : M state unit := fun s =>
  (Return tt, ({| path := path (fst s); mode := mode (fst s); file := f |}, snd s)).

Definition on_platform {X} (c : M world X) : M state X := fun s =>
  let '(r, w) := c (snd s) in (r, (fst s, w)).

Definition valid_modes : list str :=
  [pystr "read"; pystr "write"; pystr "append"; pystr "url"].

Definition url_patterns : list str :=
  [pystr "http://"; pystr "https://"; pystr "ftp://"; pystr "file://"].

(** [_is_url], lines 37-40 *)
Definition _is_url (path : str) : bool :=
  existsb (fun pattern => startswith path pattern) url_patterns.

(** [__init__], lines 13-35 *)
Definition __init__ (path mode : str) : outcome t :=
  let self := {| path := path; mode := lower mode; file := None |} in
  if bool_decide (MyFile.mode self ∉ valid_modes) then
    Raise (Raised ValueError (InvalidMode mode valid_modes))
  else if bool_decide (MyFile.mode self = pystr "url") && negb (_is_url path) then
    Raise (Raised ValueError (NotAnUrl path))
  else Return self.

(** [_open_file], lines 42-49 *)
Definition _open_file : M state unit :=
  self ← get_self;
  if bool_decide (mode self = pystr "read") then
    f ← on_platform (open (path self) R); set_file (Some f)
  else if bool_decide (mode self = pystr "write") then
    f ← on_platform (open (path self) W); set_file (Some f)
  else if bool_decide (mode self = pystr "append") then
    f ← on_platform (open (path self) A); set_file (Some f)
  else mret tt.

(** [_close_file], lines 51-54 *)
Definition _close_file : M state unit :=
  self ← get_self;
  match file self with
  | Some f =>
    if negb (h_closed f) then
      f' ← on_platform (handle_close f); set_file (Some f')
    else mret tt
  | None => mret tt
  end.

(** A method called on [self.file] while it is [None]. *)
Definition none_has_no (attribute : string) : exc :=
  Raised AttributeError (Text (pystr attribute)).

(** [read], lines 56-78 *)
Definition read : M state str :=
  self ← get_self;
  if bool_decide (mode self ≠ pystr "read") then
    raise (Raised ValueError (ReadNeedsReadMode (mode self)))
  else
    try_finally
      (try_except
         (_open_file;;
          self' ← get_self;
          match file self' with
          | Some f => on_platform (handle_read f)
          | None => raise (none_has_no "read")
          end)
         [ (Builtin FileNotFoundError,
            fun _ => raise (Raised IOError (FileNotFound (path self))));
           (Builtin PermissionError,
            fun _ => raise (Raised IOError (NoReadPermission (path self)))) ])
      _close_file.

(** [write], lines 80-106 *)
Definition write (content : str) : M state bool :=
  self ← get_self;
  if bool_decide (mode self ∉ [pystr "write"; pystr "append"]) then
    raise (Raised ValueError (WriteNeedsWriteMode (mode self)))
  else
    try_finally
      (try_except
         (_open_file;;
          self' ← get_self;
          match file self' with
          | Some f => on_platform (handle_write f content);; mret true
          | None => raise (none_has_no "write")
          end)
         [ (Builtin PermissionError,
            fun _ => raise (Raised IOError (NoWritePermission (path self))));
           (Builtin Exception,
            fun e => raise (Raised IOError (WriteFailed (str_of_exc e)))) ])
      _close_file.

Definition user_agent : str :=
  pystr "Mozilla/5.0 (Windows NT 10.0; Win64; x64) AppleWebKit/537.36".

Definition encodings : list Codec.encoding :=
  [Codec.utf_8; Codec.cp1251; Codec.koi8_r; Codec.iso_8859_1].

(** [urllib.request.Request(self.path, headers=headers)] with the
    [timeout=10] of [urlopen], lines 124-130 *)
Definition request_of (self : t) : request :=
  {| req_url := path self; req_user_agent := user_agent; req_timeout := 10 |}.

(** The loop of lines 137-141: the first encoding that decodes
    [content], with its result. *)
Fixpoint first_decoding (encodings : list Codec.encoding) (content : bytes)
  : option (Codec.encoding * str) :=
  match encodings with
  | [] => None
  | encoding :: rest =>
    match Codec.decode encoding content with
    | Some text => Some (encoding, text)
    | None => first_decoding rest content
    end
  end.

(** Lines 135-144 *)
Definition decode_content (content : bytes) : str :=
  match first_decoding encodings content with
  | Some (_, text) => text
  | None => Codec.decode_utf8_replace content
  end.

(** [read_url], lines 108-153 *)
Definition read_url : M state str :=
  self ← get_self;
  if bool_decide (mode self ≠ pystr "url") then
    raise (Raised ValueError (ReadUrlNeedsUrlMode (mode self)))
  else
    try_except
      (let req := request_of self in
       content ← on_platform (urlopen_read req);
       mret (decode_content content))
      [ (HTTPError,
         fun e =>
           match e with
           | RaisedHTTPError code reason =>
             raise (Raised IOError (HttpFailed code reason (path self)))
           | _ => raise e
           end);
        (URLError,
         fun e =>
           match e with
           | RaisedURLError reason =>
             raise (Raised IOError (UrlFailed reason (path self)))
           | _ => raise e
           end);
        (Builtin TimeoutError,
         fun _ => raise (Raised IOError (TimedOut (path self))));
        (Builtin Exception,
         fun e => raise (Raised IOError (ReadUrlFailed (str_of_exc e)))) ].

(** The patterns of lines 173-177 and 186. *)
Definition quote : Re.regex := Re.Class false [Re.Lit QUOT; Re.Lit APOS].

Definition scheme : Re.regex :=
  Re.seq [Re.lit "http"; Re.Opt (Re.Char 0x73); Re.lit "://"].

Definition href_pattern : Re.regex :=
  Re.seq [Re.lit "href="; quote;
          Re.Group (Re.seq [scheme;
                            Re.Plus (Re.Class true [Re.Lit QUOT; Re.Lit APOS])]);
          quote].

Definition src_pattern : Re.regex :=
  Re.seq [Re.lit "src="; quote;
          Re.Group (Re.seq [scheme;
                            Re.Plus (Re.Class true [Re.Lit QUOT; Re.Lit APOS])]);
          quote].

Definition css_url_pattern : Re.regex :=
  Re.seq [Re.lit "url"; Re.Char 0x28; Re.Opt quote;
          Re.Group (Re.seq [scheme;
                            Re.Plus (Re.Class true
                                       [Re.Lit QUOT; Re.Lit APOS; Re.Lit 0x29])]);
          Re.Opt quote; Re.Char 0x29].

Definition url_patterns_re : list Re.regex :=
  [href_pattern; src_pattern; css_url_pattern].

Definition general_pattern : Re.regex :=
  Re.seq [scheme;
          Re.Plus (Re.Class true
                     [Re.Space; Re.Lit 0x3C; Re.Lit 0x3E; Re.Lit QUOT;
                      Re.Lit APOS])].

(** Lines 179-188: the set [urls] once every pattern has been searched. *)
Definition collect_urls (html_content : str) : gset str :=
  let urls :=
    foldl (fun (urls : gset str) pattern =>
             urls ∪ list_to_set (Re.findall pattern html_content))
          ∅ url_patterns_re in
  urls ∪ list_to_set (Re.findall general_pattern html_content).

(** [count_urls], lines 155-195 *)
Definition count_urls : M state nat :=
  self ← get_self;
  if bool_decide (mode self ≠ pystr "url") then
    raise (Raised ValueError (CountUrlsNeedsUrlMode (mode self)))
  else
    try_except
      (html_content ← read_url;
       mret (size (collect_urls html_content)))
      [ (Builtin Exception,
         fun e =>
           on_platform (print (CountUrlsWarning (str_of_exc e)));;
           mret 0%nat) ].


(** [__enter__], lines 230-234 *)
Definition __enter__ : M state t :=
  self ← get_self;
  (if bool_decide (mode self ∈ [pystr "read"; pystr "write"; pystr "append"])
   then _open_file else mret tt);;
  get_self.

(** [__exit__], lines 236-239.  It returns [None]: an exception of the
    block is raised again. *)
Definition __exit__ : M state unit :=
  self ← get_self;
  if bool_decide (mode self ∈ [pystr "read"; pystr "write"; pystr "append"])
  then _close_file else mret tt.

(** [with self: block] *)
Definition with_block {X} (block : M state X) : M state X :=
  __enter__;; try_finally block __exit__.

(** [__repr__], lines 241-242 *)
Definition __repr__ (self : t) : str :=
  pystr "MyFile(path='" ++ path self ++ pystr "', mode='" ++ mode self
  ++ pystr "')".


End MyFile.

(** ** The console functions and [write_url]

    [write_url] and the functions of the menu print on the console and
    raise exceptions with texts of their own; the functions of the menu read
    the keyboard. *)

Module Console.
Import MyFile.

(** The text of a string literal of the source that is not ASCII. *)
Definition utf8 (s : string) : str :=
  default [] (Codec.utf8_decode Codec.Strict
                (map N_of_ascii (list_ascii_of_string s))).

(** [str(n)] for a natural number. *)
Definition decimal (n : nat) : str :=
  pystr (DecimalString.NilZero.string_of_uint (Nat.to_uint n)).

(** [s.strip()]: white space is what [str.isspace] accepts, the same
    characters as [\s]. *)
Fixpoint lstrip (s : str) : str :=
  match s with
  | c :: r => if Re.is_space c then lstrip r else s
  | [] => []
  end.

Definition strip (s : str) : str := reverse (lstrip (reverse (lstrip s))).

(** [str.upper()].  Lower-case ASCII letters go to upper case, and U+0149
    to U+02BC followed by [N].  Every other code point is kept: its
    upper-case form has none of the letters of [END], the only word the
    result is compared with. *)
Definition upper_char (c : N) : str :=
  if (0x61 <=? c) && (c <=? 0x7A) then [c - 0x20]
  else if c =? 0x149 then [0x2BC; 0x4E]
  else [c].

Definition upper (s : str) : str := flat_map upper_char s.

(** [sep.join(parts)] *)
Fixpoint join (sep : str) (parts : list str) : str :=
  match parts with
  | [] => []
  | [p] => p
  | p :: rest => p ++ sep ++ join sep rest
  end.

(** [s.split(sep)] for a separator that is not empty: [skip] counts the
    characters of the separator still to be passed, [cur] is the part being
    read. *)
Fixpoint split_from (s sep : str) (skip : nat) (cur : str) : list str :=
  match s with
  | [] => [cur]
  | c :: s' =>
    match skip with
    | S n => split_from s' sep n cur
    | O =>
      if startswith s sep then cur :: split_from s' sep (length sep - 1) []
      else split_from s' sep 0 (cur ++ [c])
    end
  end.

Definition split (s sep : str) : list str := split_from s sep 0 [].

(** Exceptions: those of the class and of the platform, those that
    [write_url] raises, and the [EOFError] of [input]. *)
Inductive raised :=
| Inner (e : exc)
| WriteUrlNeedsUrlMode (mode : str)     (* ValueError, line 212 *)
| SaveFailed (cause : raised)           (* IOError, line 228 *)
| EndOfInput.                           (* EOFError *)

(** [isinstance] for the classes that [except] clauses name;
    [EOFError] derives from [Exception]. *)
Definition is_a (r : raised) (c : exc_class) : bool :=
  match r with
  | Inner e => isinstance e c
  | WriteUrlNeedsUrlMode _ => issubclass ValueError c
  | SaveFailed _ => issubclass IOError c
  | EndOfInput => issubclass Exception c
  end.

(** What the next [input] meets: a line, or the interrupt key. *)
Inductive key :=
| Typed (line : str)
| CtrlC.

(** What is put on the console: the text of a [print] in pieces, where the
    [str(e)] of an f-string is kept as the exception, or the prompt of an
    [input]. *)
Inductive piece :=
| Str (s : str)
| StrOf (e : raised).

Inductive out :=
| Print (text : list piece)
| Prompt (text : str).

(** The keyboard, the console and the platform.  The warning that
    [count_urls] prints stays in the trace of the platform. *)
Record session := {
  keys : list key;
  screen : list out;
  host : world
}.

Definition with_keys (ks : list key) (s : session) : session :=
  {| keys := ks; screen := screen s; host := host s |}.

Definition with_host (w : world) (s : session) : session :=
  {| keys := keys s; screen := screen s; host := w |}.

Definition shown (o : out) (s : session) : session :=
  {| keys := keys s; screen := screen s ++ [o]; host := host s |}.

Inductive ending (X : Type) :=
| Done (x : X)
| Thrown (e : raised).

Arguments Done {X} x.
Arguments Thrown {X} e.

Definition P (X : Type) : Type := session -> ending X * session.

#[global] Instance P_ret : MRet P := fun X x s => (Done x, s).

#[global] Instance P_bind : MBind P := fun X Y k c s =>
  match c s with
  | (Done x, s') => k x s'
  | (Thrown e, s') => (Thrown e, s')
  end.

Definition throw {X} (e : raised) : P X := fun s => (Thrown e, s).

(** [print(...)] *)
Definition say (text : list piece) : P unit := fun s =>
  (Done tt, shown (Print text) s).

(** [input(prompt)] *)
Definition input (prompt : str) : P str := fun s =>
  let s' := shown (Prompt prompt) s in
  match keys s with
  | [] => (Thrown EndOfInput, s')
  | Typed line :: ks => (Done line, with_keys ks s')
  | CtrlC :: ks =>
    (Thrown (Inner (Raised KeyboardInterrupt (Text []))), with_keys ks s')
  end.

(** [MyFile(path, mode)] *)
Definition construct (path mode : str) : P MyFile.t := fun s =>
  match __init__ path mode with
  | Return obj => (Done obj, s)
  | Raise e => (Thrown (Inner e), s)
  end.

(** [obj.method(...)]: the method runs on the object and the platform;
    the object comes back with the result.  No caller looks at the object
    once a method has raised. *)
Definition call {X} (obj : MyFile.t) (method : M state X)
  : P (X * MyFile.t) := fun s =>
  match method (obj, host s) with
  | (Return x, (obj', w')) => (Done (x, obj'), with_host w' s)
  | (Raise e, (_, w')) => (Thrown (Inner e), with_host w' s)
  end.

Definition handler (X : Type) : Type := exc_class * (raised -> P X).

Fixpoint select {X} (clauses : list (handler X)) (e : raised)
  : option (P X) :=
  match clauses with
  | [] => None
  | (c, h) :: rest => if is_a e c then Some (h e) else select rest e
  end.

(** [try: body except ...] *)
Definition attempt {X} (body : P X) (clauses : list (handler X)) : P X :=
  fun s =>
  match body s with
  | (Done x, s') => (Done x, s')
  | (Thrown e, s') =>
    match select clauses e with
    | Some h => h s'
    | None => (Thrown e, s')
    end
  end.

(** [write_url], lines 197-228 *)
Definition write_url (filepath : str) (self : MyFile.t) : P (bool * MyFile.t) :=
  if bool_decide (mode self ≠ pystr "url") then
    throw (WriteUrlNeedsUrlMode (mode self))
  else
    attempt
      ('(content, self) ← call self read_url;
       file_writer ← construct filepath (pystr "write");
       '(success, _) ← call file_writer (write content);
       (if success : bool then
          say [Str (utf8 "Содержимое URL успешно сохранено в файл: "
                    ++ filepath)]
        else mret tt);;
       mret (success, self))
      [ (Builtin Exception, fun e => throw (SaveFailed e)) ].

(** [display_menu], lines 249-257 *)
Definition display_menu : P unit :=
  say [Str ([LF] ++ replicate 50 0x3D)];;
  say [Str (utf8 "МЕНЮ РАБОТЫ С ФАЙЛАМИ И URL")];;
  say [Str (replicate 50 0x3D)];;
  say [Str (utf8 "1. Работа с файлом (чтение/запись)")];;
  say [Str (utf8 "2. Работа с URL")];;
  say [Str (utf8 "3. Выход")];;
  say [Str (replicate 50 0x3D)].

Definition mode_map : gmap str str :=
  {[ pystr "1" := pystr "read"; pystr "2" := pystr "write";
     pystr "3" := pystr "append" ]}.

(** The loop of lines 307-314.  Every turn takes a line from the
    keyboard; [fuel] is the number of keys that are left. *)
Fixpoint read_lines (fuel line_num : nat) (lines : list str) : P (list str) :=
  typed ← input (utf8 "Строка " ++ decimal line_num ++ pystr ": ");
  let line := strip typed in
  if bool_decide (line = []) || bool_decide (upper line = pystr "END")
  then mret lines
  else
    match fuel with
    | S fuel' => read_lines fuel' (S line_num) (lines ++ [line])
    | O => mret lines
    end.

Definition typed_lines : P (list str) := fun s =>
  read_lines (length (keys s)) 1 [] s.

(** [file_operations], lines 260-325 *)
Definition file_operations : P unit :=
  say [Str ([LF] ++ replicate 30 0x2D)];;
  say [Str (utf8 "РАБОТА С ФАЙЛАМИ")];;
  say [Str (replicate 30 0x2D)];;
  typed ← input (utf8 "Введите путь к файлу: ");
  let file_path := strip typed in
  say [Str ([LF] ++ utf8 "Выберите режим работы:")];;
  say [Str (utf8 "1. Чтение файла")];;
  say [Str (utf8 "2. Запись в файл (перезапись)")];;
  say [Str (utf8 "3. Добавление в файл")];;
  typed ← input (utf8 "Введите номер режима (1-3): ");
  let mode_choice := strip typed in
  match mode_map !! mode_choice with
  | None => say [Str (utf8 "Ошибка: неверный выбор режима")]
  | Some mode =>
    attempt
      (file_obj ← construct file_path mode;
       if bool_decide (mode = pystr "read") then
         '(content, _) ← call file_obj read;
         say [Str ([LF] ++ utf8 "Содержимое файла '" ++ file_path
                   ++ pystr "':")];;
         say [Str (replicate 40 0x3D)];;
         say [Str content];;
         say [Str (replicate 40 0x3D)]
       else if bool_decide (mode ∈ [pystr "write"; pystr "append"]) then
         say [Str ([LF] ++ utf8 "Введите содержимое для "
                   ++ (if bool_decide (mode = pystr "write")
                       then utf8 "записи" else utf8 "добавления")
                   ++ pystr ":")];;
         say [Str (utf8 "(Для завершения ввода введите пустую строку или 'END' на отдельной строке)")];;
         say [Str (replicate 40 0x2D)];;
         lines ← typed_lines;
         let content := join [LF] lines in
         '(success, _) ← call file_obj (write content);
         if success : bool then
           let action := if bool_decide (mode = pystr "write")
                         then utf8 "записано" else utf8 "добавлено" in
           say [Str ([LF] ++ utf8 "✓ Содержимое успешно " ++ action
                     ++ utf8 " в файл '" ++ file_path ++ pystr "'")]
         else mret tt
       else mret tt)
      [ (Builtin Exception,
         fun e => say [Str ([LF] ++ utf8 "✗ Ошибка: "); StrOf e]) ]
  end.

(** Lines 335-339: the location that [url_operations] hands to the
    class. *)
Definition typed_url (typed : str) : str :=
  let url := strip typed in
  if negb (startswith url (pystr "http://") || startswith url (pystr "https://"))
  then pystr "https://" ++ url
  else url.

(** Lines 372-373: the name of the file when the user gives none. *)
Definition default_save_path (url : str) : str :=
  let domain :=
    default [] (head (split (default [] (last (split url (pystr "//"))))
                            (pystr "/"))) in
  domain ++ pystr "_content.html".

(** [url_operations], lines 328-387 *)
Definition url_operations : P unit :=
  say [Str ([LF] ++ replicate 30 0x2D)];;
  say [Str (utf8 "РАБОТА С URL")];;
  say [Str (replicate 30 0x2D)];;
  typed ← input (utf8 "Введите URL (например, https://example.com): ");
  let url := typed_url typed in
  attempt
    (url_obj ← construct url (pystr "url");
     say [Str ([LF] ++ utf8 "Выберите операцию:")];;
     say [Str (utf8 "1. Прочитать содержимое страницы")];;
     say [Str (utf8 "2. Подсчитать количество ссылок на странице")];;
     say [Str (utf8 "3. Сохранить содержимое страницы в файл")];;
     typed ← input (utf8 "Введите номер операции (1-3): ");
     let operation := strip typed in
     if bool_decide (operation = pystr "1") then
       '(content, _) ← call url_obj read_url;
       say [Str ([LF] ++ utf8 "Содержимое страницы '" ++ url ++ pystr "':")];;
       say [Str (replicate 60 0x3D)];;
       say [Str (take 1000 content
                 ++ (if (1000 <? length content)%nat then pystr "..." else []))];;
       say [Str (replicate 60 0x3D)];;
       say [Str (utf8 "Общий размер: " ++ decimal (length content)
                 ++ utf8 " символов")]
     else if bool_decide (operation = pystr "2") then
       '(url_count, _) ← call url_obj count_urls;
       say [Str ([LF] ++ utf8 "✓ На странице '" ++ url ++ utf8 "' найдено "
                 ++ decimal url_count ++ utf8 " URL-адресов")]
     else if bool_decide (operation = pystr "3") then
       typed ← input (utf8 "Введите путь для сохранения файла: ");
       let save_path :=
         if bool_decide (strip typed = []) then default_save_path url
         else strip typed in
       '(success, _) ← write_url save_path url_obj;
       if success : bool then
         say [Str ([LF] ++ utf8 "✓ Содержимое успешно сохранено в файл '"
                   ++ save_path ++ pystr "'")]
       else mret tt
     else say [Str ([LF] ++ utf8 "✗ Ошибка: неверный выбор операции")])
    [ (Builtin Exception,
       fun e =>
         say [Str ([LF] ++ utf8 "✗ Ошибка: "); StrOf e];;
         say [Str (utf8 "Возможные причины:")];;
         say [Str (utf8 "- Отсутствует интернет-соединение")];;
         say [Str (utf8 "- URL недоступен или не существует")];;
         say [Str (utf8 "- Ошибка доступа к URL")]) ].

(** The loop of [main], lines 396-411; [fuel] is the number of keys that
    are left, and every turn takes at least one. *)
Fixpoint main_loop (fuel : nat) : P unit :=
  display_menu;;
  typed ← input ([LF] ++ utf8 "Выберите действие (1-3): ");
  let choice := strip typed in
  let again : P unit :=
    input ([LF] ++ utf8 "Нажмите Enter для продолжения...");;
    match fuel with
    | S fuel' => main_loop fuel'
    | O => mret tt
    end in
  if bool_decide (choice = pystr "1") then file_operations;; again
  else if bool_decide (choice = pystr "2") then url_operations;; again
  else if bool_decide (choice = pystr "3") then
    say [Str ([LF] ++ utf8 "До свидания!")]
  else
    say [Str ([LF] ++ utf8 "Ошибка: введите число от 1 до 3")];; again.

Definition menu_turns : P unit := fun s => main_loop (length (keys s)) s.

(** [main], lines 390-411 *)
Definition main : P unit :=
  say [Str (replicate 50 0x3D)];;
  say [Str (utf8 "ПРОГРАММА ДЛЯ РАБОТЫ С ФАЙЛАМИ И URL")];;
  say [Str (replicate 50 0x3D)];;
  menu_turns.

(** The block under [if __name__ == __main__], lines 414-420 *)
Definition program : P unit :=
  attempt main
    [ (Builtin KeyboardInterrupt,
       fun _ => say [Str ([LF; LF] ++ utf8 "Программа завершена пользователем.")]);
      (Builtin Exception,
       fun e => say [Str ([LF] ++ utf8 "Произошла непредвиденная ошибка: ");
                     StrOf e]) ].

End Console.

(** * Vocabulary of the statements *)

Import MyFile.

(** The code points that UTF-8 encodes: everything up to U+10FFFF except
    the surrogates. *)
Definition scalar_value (c : N) : Prop :=
  c < 0xD800 \/ (0xE000 <= c /\ c < 0x110000).

(** The location starts with one of the recognised schemes. *)
Definition has_scheme (path : str) : Prop :=
  exists scheme rest, scheme ∈ url_patterns /\ path = scheme ++ rest.

(** The mode of [open] that [_open_file] picks for a writing instance. *)
Definition writes_as (self : MyFile.t) (om : open_mode) : Prop :=
  (mode self = pystr "write" /\ om = W)
  \/ (mode self = pystr "append" /\ om = A).

(** What is left of a file once it has been opened for writing. *)
Definition content_before (om : open_mode) (e : option entry) : bytes :=
  match om, e with
  | A, Some (Regular _ _ data) => data
  | _, _ => []
  end.

Definition readable_after (e : option entry) : bool :=
  match e with
  | Some (Regular r _ _) => r
  | _ => true
  end.

Definition can_write (e : option entry) : Prop :=
  match e with
  | None => True
  | Some (Regular _ wr _) => wr = true
  | Some (Unopenable _ _) => False
  end.

(** A file can be created at the path, which is outside the file system
    ([old] is empty), or the path names a readable and writable file whose
    bytes are the UTF-8 text [old]. *)
Definition holds_text (w : world) (P old : str) : Prop :=
  (fs w !! P = None /\ old = [])
  \/ exists data, fs w !! P = Some (Regular true true data)
                  /\ Codec.decode Codec.utf_8 data = Some old.

(** What [read_url] raises in place of the exception [e] of the fetch. *)
Definition read_url_error (path : str) (e : exc) : exc :=
  match e with
  | RaisedHTTPError code reason => Raised IOError (HttpFailed code reason path)
  | RaisedURLError reason => Raised IOError (UrlFailed reason path)
  | Raised c m =>
    if issubclass c TimeoutError then Raised IOError (TimedOut path)
    else if issubclass c Exception then Raised IOError (ReadUrlFailed m)
    else e
  end.

(** Everything the four patterns find in a page, in the order of the
    searches. *)
Definition found (html_content : str) : list str :=
  concat (map (fun pattern => Re.findall pattern html_content)
              (url_patterns_re ++ [general_pattern])).

(** The platform after a call, and the class of the exception a call
    raised. *)
Definition after {X} (r : outcome X * state) : world := snd (snd r).

Definition raised_by {X} (r : outcome X * state) : option exc_class :=
  match fst r with
  | Raise e => Some (class_of e)
  | Return _ => None
  end.

(** Concrete platforms and objects for the examples. *)
Definition unreachable : request -> fetched :=
  fun _ => Failure (RaisedURLError (Text (pystr "unreachable"))).

Definition empty_world (p : platform) : world :=
  {| platform_of := p; fs := ∅; net := unreachable; trace := [] |}.

Definition world_with (p : string) (e : entry) : world :=
  {| platform_of := Posix; fs := {[ pystr p := e ]}; net := unreachable;
     trace := [] |}.

Definition failing_world (e : exc) : world :=
  {| platform_of := Posix; fs := ∅; net := fun _ => Failure e; trace := [] |}.

Definition serving_world (body : bytes) : world :=
  {| platform_of := Posix; fs := ∅; net := fun _ => Response body;
     trace := [] |}.

Definition http_404 : exc := RaisedHTTPError 404 (Text (pystr "Not Found")).

Definition instance (path mode : string) : MyFile.t :=
  {| path := pystr path; mode := pystr mode; file := None |}.

Definition ascii_bytes (s : str) : bytes := map Codec.byte_of_N s.

Definition attribute (name value : string) : str :=
  pystr name ++ pystr "=" ++ [QUOT] ++ pystr value ++ [QUOT].

(** A page with one [href], one [src] and one bare link. *)
Definition page_abc : str :=
  pystr "<a " ++ attribute "href" "http://a.com" ++ pystr ">A</a> <img "
  ++ attribute "src" "http://b.com" ++ pystr "> see http://c.com".

(** The text written by the call whose flag is examined. *)
Definition sample_write : outcome bool * state :=
  write (pystr "text") (instance "notes.txt" "write", empty_world Posix).


(** ** Vocabulary for the rest of the class and for the console *)

Import Console.

(** The object holds a file that has not been closed. *)
Definition holds_open (self : MyFile.t) : bool :=
  match file self with
  | Some f => negb (h_closed f)
  | None => false
  end.

(** The mode of [open] that [_open_file] picks. *)
Definition opens_as (self : MyFile.t) (om : open_mode) : Prop :=
  (mode self = pystr "read" /\ om = R) \/ writes_as self om.

(** A surrogate code point: no UTF-8 encoding. *)
Definition surrogate (c : N) : Prop := 0xD800 <= c /\ c < 0xE000.

(** [scalar_value] as a test. *)
Definition is_scalar (c : N) : bool :=
  (c <? 0xD800) || ((0xE000 <=? c) && (c <? 0x110000)).

(** The line that [write_url] prints, line 223. *)
Definition saved_line (filepath : str) : out :=
  Print [Str (utf8 "Содержимое URL успешно сохранено в файл: " ++ filepath)].


(** The line that reports an exception, lines 325 and 383. *)
Definition error_line (e : raised) : out :=
  Print [Str ([LF] ++ utf8 "✗ Ошибка: "); StrOf e].

(** The prompt of the line with the given number, line 310. *)
Definition line_prompt (line_num : nat) : out :=
  Prompt (utf8 "Строка " ++ decimal line_num ++ pystr ": ").

(** The line ends the text: it is blank, or it is the word END in any
    case (line 311). *)
Definition ends_text (typed : str) : Prop :=
  strip typed = [] \/ upper (strip typed) = pystr "END".

(** The last line of [main], line 406. *)
Definition farewell : out := Print [Str ([LF] ++ utf8 "До свидания!")].

(** The two lines of the block under [__main__], lines 418 and 420. *)
Definition interrupted_line : out :=
  Print [Str ([LF; LF] ++ utf8 "Программа завершена пользователем.")].

Definition unexpected_line (e : raised) : out :=
  Print [Str ([LF] ++ utf8 "Произошла непредвиденная ошибка: "); StrOf e].

(** A handler that only prints. *)
Definition only_prints {X} (h : raised -> P X) : Prop :=
  forall e s, exists x s', h e s = (Done x, s').

(** A computation that gives back no more keys than it found. *)
Definition takes_keys {X} (c : P X) : Prop :=
  forall s r s', c s = (r, s') -> (length (keys s') <= length (keys s))%nat.

(** Sessions of the examples: nothing typed; the given lines typed. *)
Definition start (w : world) : session :=
  {| keys := []; screen := []; host := w |}.

Definition session_of (typed : list string) (w : world) : session :=
  {| keys := map (fun line => Typed (pystr line)) typed;
     screen := [];
     host := w |}.

(** What the interrupt key raises, and a session in which it is pressed
    while the text of a file is typed. *)
Definition interrupt : raised := Inner (Raised KeyboardInterrupt (Text [])).

Definition interrupted_session : session :=
  {| keys := [Typed (pystr "notes.txt"); Typed (pystr "2"); CtrlC];
     screen := [];
     host := empty_world Posix |}.

(** An exception that is not an [Exception]. *)
Definition abort : exc := Raised BaseException (Text []).

(** * Properties *)

(** ** UTF-8: encoding then decoding *)

(** Comparisons on octet values are settled by linear arithmetic. *)
Ltac settle_tests :=
  repeat match goal with
  | |- context [N.ltb ?a ?b] => destruct (N.ltb_spec a b); try lia
  | |- context [N.leb ?a ?b] => destruct (N.leb_spec a b); try lia
  | |- context [N.eqb ?a ?b] => destruct (N.eqb_spec a b); try lia
  end.

(** Quotients and remainders by 64 become variables tied by the equations
    of Euclidean division. *)
Ltac sextets c :=
  pose proof (N.div_mod c 64 ltac:(lia));
  pose proof (N.mod_lt c 64 ltac:(lia));
  pose proof (N.div_mod (c / 64) 64 ltac:(lia));
  pose proof (N.mod_lt (c / 64) 64 ltac:(lia));
  pose proof (N.div_mod (c / 64 / 64) 64 ltac:(lia));
  pose proof (N.mod_lt (c / 64 / 64) 64 ltac:(lia));
  replace (c / 4096) with (c / 64 / 64) in *
    by (rewrite N.Div0.div_div; reflexivity);
  replace (c / 262144) with (c / 64 / 64 / 64) in *
    by (rewrite !N.Div0.div_div; reflexivity);
  generalize dependent (c / 64 / 64 / 64); intros ?;
  generalize dependent ((c / 64 / 64) mod 64); intros ?;
  generalize dependent (c / 64 / 64); intros ?;
  generalize dependent ((c / 64) mod 64); intros ?;
  generalize dependent (c / 64); intros ?;
  generalize dependent (c mod 64); intros ?; intros.

Section Utf8.
Import Codec.

Lemma utf8_decode_1 h b0 r :
  b0 < 0x80 -> utf8_decode h (b0 :: r) = cons b0 <$> utf8_decode h r.
Proof. intros. cbn [utf8_decode]. settle_tests; done. Qed.

Lemma utf8_decode_2 h b0 b1 r :
  0xC2 <= b0 < 0xE0 -> 0x80 <= b1 < 0xC0 ->
  utf8_decode h (b0 :: b1 :: r)
  = cons ((b0 - 0xC0) * 64 + (b1 - 0x80)) <$> utf8_decode h r.
Proof.
  intros. cbn [utf8_decode]. unfold is_continuation. settle_tests; done.
Qed.

Lemma utf8_decode_3 h b0 b1 b2 r :
  0xE0 <= b0 < 0xF0 -> 0x80 <= b1 < 0xC0 -> 0x80 <= b2 < 0xC0 ->
  (b0 = 0xE0 -> 0xA0 <= b1) -> (b0 = 0xED -> b1 < 0xA0) ->
  utf8_decode h (b0 :: b1 :: b2 :: r)
  = cons ((b0 - 0xE0) * 4096 + (b1 - 0x80) * 64 + (b2 - 0x80))
      <$> utf8_decode h r.
Proof.
  intros. cbn [utf8_decode]. unfold is_continuation. settle_tests; done.
Qed.

Lemma utf8_decode_4 h b0 b1 b2 b3 r :
  0xF0 <= b0 < 0xF5 ->
  0x80 <= b1 < 0xC0 -> 0x80 <= b2 < 0xC0 -> 0x80 <= b3 < 0xC0 ->
  (b0 = 0xF0 -> 0x90 <= b1) -> (b0 = 0xF4 -> b1 < 0x90) ->
  utf8_decode h (b0 :: b1 :: b2 :: b3 :: r)
  = cons ((b0 - 0xF0) * 262144 + (b1 - 0x80) * 4096
          + (b2 - 0x80) * 64 + (b3 - 0x80))
      <$> utf8_decode h r.
Proof.
  intros. cbn [utf8_decode]. unfold is_continuation. settle_tests; done.
Qed.

(** One character: the decoder reads back what the encoder wrote. *)
Lemma utf8_decode_encode_char h c l r :
  utf8_encode_char c = Some l ->
  utf8_decode h (l ++ r) = cons c <$> utf8_decode h r.
Proof.
  unfold utf8_encode_char. intros E.
  destruct (N.ltb_spec c 0x80).
  { injection E as <-. apply utf8_decode_1. lia. }
  destruct (N.ltb_spec c 0x800).
  { injection E as <-. cbn [app]. rewrite utf8_decode_2.
    - f_equal. f_equal. sextets c. lia.
    - sextets c. lia.
    - sextets c. lia. }
  destruct (N.ltb_spec c 0x10000).
  { destruct (N.leb_spec 0xD800 c), (N.ltb_spec c 0xE000);
      cbn [andb] in E; try discriminate E;
      injection E as <-; cbn [app]; (rewrite utf8_decode_3;
        [ f_equal; f_equal; sextets c; lia | sextets c; lia .. ]). }
  destruct (N.ltb_spec c 0x110000); [| discriminate E].
  injection E as <-. cbn [app]. rewrite utf8_decode_4;
    [ f_equal; f_equal; sextets c; lia | sextets c; lia .. ].
Qed.

Lemma utf8_encode_char_octets c l :
  utf8_encode_char c = Some l -> Forall (fun b => b < 256) l.
Proof.
  unfold utf8_encode_char. intros E.
  repeat match type of E with
  | context [N.ltb ?a ?b] => destruct (N.ltb_spec a b)
  | context [N.leb ?a ?b] => destruct (N.leb_spec a b)
  end; cbn [andb] in E; try discriminate E; injection E as <-;
  repeat constructor; sextets c; lia.
Qed.

Lemma utf8_encode_char_scalar c :
  scalar_value c -> is_Some (utf8_encode_char c).
Proof.
  unfold scalar_value, utf8_encode_char. intros Hc.
  settle_tests; cbn [andb]; eauto.
Qed.

Lemma utf8_decode_encode_app h s l r :
  utf8_encode s = Some l ->
  utf8_decode h (l ++ r) = (fun t => s ++ t) <$> utf8_decode h r.
Proof.
  revert l. induction s as [|c s IH]; intros l E; cbn [utf8_encode] in E.
  - injection E as <-. cbn [app]. by destruct (utf8_decode h r).
  - destruct (utf8_encode_char c) as [a|] eqn:Ec; [| discriminate E].
    destruct (utf8_encode s) as [b|]; [| discriminate E].
    injection E as <-. rewrite <- app_assoc.
    rewrite (utf8_decode_encode_char h c a _ Ec), (IH b eq_refl).
    by destruct (utf8_decode h r).
Qed.

Lemma utf8_decode_encode h s l :
  utf8_encode s = Some l -> utf8_decode h l = Some s.
Proof.
  intros E. rewrite <- (app_nil_r l), (utf8_decode_encode_app h s l [] E).
  cbn. by rewrite app_nil_r.
Qed.

Lemma utf8_encode_app a b :
  utf8_encode (a ++ b)
  = match utf8_encode a, utf8_encode b with
    | Some x, Some y => Some (x ++ y)
    | _, _ => None
    end.
Proof.
  induction a as [|c a IH]; cbn [app utf8_encode].
  - by destruct (utf8_encode b).
  - rewrite IH. destruct (utf8_encode_char c), (utf8_encode a), (utf8_encode b);
      try done. by rewrite app_assoc.
Qed.

Lemma utf8_encode_octets s l :
  utf8_encode s = Some l -> Forall (fun b => b < 256) l.
Proof.
  revert l. induction s as [|c s IH]; intros l E; cbn [utf8_encode] in E.
  - injection E as <-. constructor.
  - destruct (utf8_encode_char c) as [a|] eqn:Ec; [| discriminate E].
    destruct (utf8_encode s) as [b|]; [| discriminate E].
    injection E as <-. apply Forall_app. split.
    + by apply (utf8_encode_char_octets c).
    + by apply IH.
Qed.

Lemma utf8_encode_scalar s :
  Forall scalar_value s -> is_Some (utf8_encode s).
Proof.
  induction 1 as [|c s Hc _ [b IH]]; cbn [utf8_encode]; [by eexists |].
  destruct (utf8_encode_char_scalar c Hc) as [a ->]. rewrite IH. by eexists.
Qed.

Lemma to_N_byte_of_N n : n < 256 -> Byte.to_N (byte_of_N n) = n.
Proof.
  intros H. unfold byte_of_N.
  destruct (Byte.of_N n) as [b|] eqn:E.
  - by apply Byte.to_of_N.
  - apply Byte.of_N_None_iff in E. lia.
Qed.

Lemma octets_of_bytes l :
  Forall (fun b => b < 256) l -> map Byte.to_N (map byte_of_N l) = l.
Proof.
  induction 1 as [|n l Hn _ IH]; cbn [map]; [done |].
  by rewrite to_N_byte_of_N, IH.
Qed.

(** What [encode('utf-8')] produces, [decode('utf-8')] reads back. *)
Lemma decode_encode_utf8 text content :
  encode_utf8 text = Some content -> decode utf_8 content = Some text.
Proof.
  unfold encode_utf8, decode. intros E.
  destruct (utf8_encode text) as [l|] eqn:El; [| discriminate E].
  injection E as <-. rewrite octets_of_bytes by eauto using utf8_encode_octets.
  by apply utf8_decode_encode.
Qed.

Lemma encode_utf8_app a b :
  encode_utf8 (a ++ b)
  = match encode_utf8 a, encode_utf8 b with
    | Some x, Some y => Some (x ++ y)
    | _, _ => None
    end.
Proof.
  unfold encode_utf8. rewrite utf8_encode_app.
  destruct (utf8_encode a), (utf8_encode b); cbn; try done.
  by rewrite map_app.
Qed.

Lemma encode_utf8_scalar text :
  Forall scalar_value text -> is_Some (encode_utf8 text).
Proof.
  intros H. unfold encode_utf8.
  destruct (utf8_encode_scalar text H) as [l ->]. by eexists.
Qed.

Lemma utf8_encode_char_2 b0 b1 :
  0xC2 <= b0 < 0xE0 -> 0x80 <= b1 < 0xC0 ->
  utf8_encode_char ((b0 - 0xC0) * 64 + (b1 - 0x80)) = Some [b0; b1].
Proof.
  intros H0 H1. set (c := (b0 - 0xC0) * 64 + (b1 - 0x80)).
  assert (c / 64 = b0 - 0xC0) as Hq
    by (symmetry; apply (N.div_unique c 64 _ (b1 - 0x80)); lia).
  assert (c mod 64 = b1 - 0x80) as Hr
    by (symmetry; apply (N.mod_unique c 64 (b0 - 0xC0)); lia).
  unfold utf8_encode_char. rewrite Hq, Hr.
  destruct (N.ltb_spec c 0x80); [lia |].
  destruct (N.ltb_spec c 0x800); [| lia].
  do 3 f_equal; lia.
Qed.

Lemma utf8_encode_char_3 b0 b1 b2 :
  0xE0 <= b0 < 0xF0 -> 0x80 <= b1 < 0xC0 -> 0x80 <= b2 < 0xC0 ->
  (b0 = 0xE0 -> 0xA0 <= b1) -> (b0 = 0xED -> b1 < 0xA0) ->
  utf8_encode_char ((b0 - 0xE0) * 4096 + (b1 - 0x80) * 64 + (b2 - 0x80))
  = Some [b0; b1; b2].
Proof.
  intros H0 H1 H2 Hlow Hsur.
  set (c := (b0 - 0xE0) * 4096 + (b1 - 0x80) * 64 + (b2 - 0x80)).
  assert (c / 4096 = b0 - 0xE0) as Hq0
    by (symmetry;
        apply (N.div_unique c 4096 _ ((b1 - 0x80) * 64 + (b2 - 0x80))); lia).
  assert (c / 64 = (b0 - 0xE0) * 64 + (b1 - 0x80)) as Hq1
    by (symmetry; apply (N.div_unique c 64 _ (b2 - 0x80)); lia).
  assert (c mod 64 = b2 - 0x80) as Hr
    by (symmetry;
        apply (N.mod_unique c 64 ((b0 - 0xE0) * 64 + (b1 - 0x80))); lia).
  assert ((c / 64) mod 64 = b1 - 0x80) as Hr1
    by (rewrite Hq1; symmetry;
        apply (N.mod_unique _ 64 (b0 - 0xE0)); lia).
  unfold utf8_encode_char. rewrite Hq0, Hr, Hr1.
  destruct (N.ltb_spec c 0x80); [lia |].
  destruct (N.ltb_spec c 0x800); [lia |].
  destruct (N.ltb_spec c 0x10000); [| lia].
  destruct (N.leb_spec 0xD800 c), (N.ltb_spec c 0xE000); cbn [andb];
    try lia; do 4 f_equal; lia.
Qed.

Lemma utf8_encode_char_4 b0 b1 b2 b3 :
  0xF0 <= b0 < 0xF5 ->
  0x80 <= b1 < 0xC0 -> 0x80 <= b2 < 0xC0 -> 0x80 <= b3 < 0xC0 ->
  (b0 = 0xF0 -> 0x90 <= b1) -> (b0 = 0xF4 -> b1 < 0x90) ->
  utf8_encode_char ((b0 - 0xF0) * 262144 + (b1 - 0x80) * 4096
                    + (b2 - 0x80) * 64 + (b3 - 0x80))
  = Some [b0; b1; b2; b3].
Proof.
  intros H0 H1 H2 H3 Hlow Hhigh.
  set (c := (b0 - 0xF0) * 262144 + (b1 - 0x80) * 4096
            + (b2 - 0x80) * 64 + (b3 - 0x80)).
  assert (c / 262144 = b0 - 0xF0) as Hq0
    by (symmetry;
        apply (N.div_unique c 262144 _
                 ((b1 - 0x80) * 4096 + (b2 - 0x80) * 64 + (b3 - 0x80))); lia).
  assert (c / 4096 = (b0 - 0xF0) * 64 + (b1 - 0x80)) as Hq1
    by (symmetry;
        apply (N.div_unique c 4096 _ ((b2 - 0x80) * 64 + (b3 - 0x80))); lia).
  assert (c / 64 = (b0 - 0xF0) * 4096 + (b1 - 0x80) * 64 + (b2 - 0x80)) as Hq2
    by (symmetry; apply (N.div_unique c 64 _ (b3 - 0x80)); lia).
  assert (c mod 64 = b3 - 0x80) as Hr
    by (symmetry;
        apply (N.mod_unique c 64
                 ((b0 - 0xF0) * 4096 + (b1 - 0x80) * 64 + (b2 - 0x80))); lia).
  assert ((c / 64) mod 64 = b2 - 0x80) as Hr2
    by (rewrite Hq2; symmetry;
        apply (N.mod_unique _ 64 ((b0 - 0xF0) * 64 + (b1 - 0x80))); lia).
  assert ((c / 4096) mod 64 = b1 - 0x80) as Hr1
    by (rewrite Hq1; symmetry; apply (N.mod_unique _ 64 (b0 - 0xF0)); lia).
  unfold utf8_encode_char. rewrite Hq0, Hr, Hr1, Hr2.
  destruct (N.ltb_spec c 0x80); [lia |].
  destruct (N.ltb_spec c 0x800); [lia |].
  destruct (N.ltb_spec c 0x10000); [lia |].
  destruct (N.ltb_spec c 0x110000); [| lia].
  do 5 f_equal; lia.
Qed.

(** Conversely, what the strict decoder accepts is the encoding of what
    it returns. *)
Lemma utf8_encode_decode bs s :
  utf8_decode Strict bs = Some s -> utf8_encode s = Some bs.
Proof.
  remember (length bs) as n eqn:Hn. revert bs s Hn.
  induction n as [n IH] using lt_wf_ind. intros bs s -> H.
  assert (forall c r enc l,
            utf8_encode_char c = Some enc ->
            (length r < length bs)%nat ->
            cons c <$> utf8_decode Strict r = Some l ->
            utf8_encode l = Some (enc ++ r)) as Hstep.
  { intros c r enc l Hc Hr Hl.
    destruct (utf8_decode Strict r) as [t|] eqn:Ht; [| discriminate Hl].
    injection Hl as <-. cbn [utf8_encode].
    by rewrite Hc, (IH (length r) Hr r t eq_refl Ht). }
  destruct bs as [|b0 r0]; [by injection H as <- |].
  cbn [utf8_decode] in H. unfold is_continuation in H.
  destruct (N.ltb_spec b0 0x80).
  { apply (Hstep b0 r0 [b0]); [| cbn; lia | done].
    unfold utf8_encode_char. by destruct (N.ltb_spec b0 0x80); [| lia]. }
  destruct (N.ltb_spec b0 0xC2); [discriminate H |].
  destruct (N.ltb_spec b0 0xE0).
  { destruct r0 as [|b1 r1]; [discriminate H |].
    destruct (N.leb_spec 0x80 b1), (N.ltb_spec b1 0xC0);
      cbn [andb] in H; try discriminate H.
    refine (Hstep _ r1 [b0; b1] s _ _ H); [| cbn; lia].
    apply utf8_encode_char_2; lia. }
  destruct (N.ltb_spec b0 0xF0).
  { destruct r0 as [|b1 r1]; [discriminate H |].
    destruct (N.leb_spec 0x80 b1), (N.ltb_spec b1 0xC0),
             (N.ltb_spec b1 0xA0), (N.eqb_spec b0 0xE0), (N.eqb_spec b0 0xED);
      cbn [andb orb negb] in H; try discriminate H; try lia.
    all: destruct r1 as [|b2 r2]; [discriminate H |].
    all: destruct (N.leb_spec 0x80 b2), (N.ltb_spec b2 0xC0);
      cbn [andb] in H; try discriminate H.
    all: refine (Hstep _ r2 [b0; b1; b2] s _ _ H); [| cbn; lia].
    all: apply utf8_encode_char_3; lia. }
  destruct (N.ltb_spec b0 0xF5); [| discriminate H].
  destruct r0 as [|b1 r1]; [discriminate H |].
  destruct (N.leb_spec 0x80 b1), (N.ltb_spec b1 0xC0),
           (N.ltb_spec b1 0x90), (N.eqb_spec b0 0xF0), (N.eqb_spec b0 0xF4);
    cbn [andb orb negb] in H; try discriminate H; try lia.
  all: destruct r1 as [|b2 r2]; [discriminate H |].
  all: destruct (N.leb_spec 0x80 b2), (N.ltb_spec b2 0xC0);
    cbn [andb negb] in H; try discriminate H.
  all: destruct r2 as [|b3 r3]; [discriminate H |].
  all: destruct (N.leb_spec 0x80 b3), (N.ltb_spec b3 0xC0);
    cbn [andb] in H; try discriminate H.
  all: refine (Hstep _ r3 [b0; b1; b2; b3] s _ _ H); [| cbn; lia].
  all: apply utf8_encode_char_4; lia.
Qed.

Lemma byte_of_N_to_N b : byte_of_N (Byte.to_N b) = b.
Proof. unfold byte_of_N. by rewrite Byte.of_to_N. Qed.

(** A byte string is valid UTF-8 exactly when it is the encoding of a
    text. *)
Lemma encode_decode_utf8 content text :
  decode utf_8 content = Some text -> encode_utf8 text = Some content.
Proof.
  unfold decode, encode_utf8. intros H.
  rewrite (utf8_encode_decode _ _ H). cbn. f_equal.
  rewrite map_map. rewrite <- (map_id content) at 2.
  apply map_ext. intros b. apply byte_of_N_to_N.
Qed.

End Utf8.

(** ** Newlines *)

Lemma translate_newlines_app p a b :
  translate_newlines p (a ++ b)
  = translate_newlines p a ++ translate_newlines p b.
Proof. apply flat_map_app. Qed.

Lemma translate_newlines_scalar p s :
  Forall scalar_value s -> Forall scalar_value (translate_newlines p s).
Proof.
  induction 1 as [|c s Hc _ IH]; cbn; [constructor |].
  apply Forall_app. split; [| exact IH].
  destruct (c =? LF); [| by constructor].
  destruct p; repeat constructor; unfold scalar_value, CR, LF; lia.
Qed.

(** A text without carriage returns comes back from a file as it was
    written, on either platform. *)
Lemma universal_newlines_translate p s :
  CR ∉ s -> universal_newlines (translate_newlines p s) = s.
Proof.
  induction s as [|c s IH]; intros Hs; [done |].
  apply not_elem_of_cons in Hs as [Hc Hs]. specialize (IH Hs).
  change (translate_newlines p (c :: s))
    with ((if c =? LF then linesep p else [c]) ++ translate_newlines p s).
  destruct (N.eqb_spec c LF) as [-> | Hlf].
  - destruct p; cbn [linesep app universal_newlines].
    + change (LF =? CR) with false. cbn iota. by rewrite IH.
    + change (CR =? CR) with true. change (LF =? LF) with true. cbn iota.
      by rewrite IH.
  - cbn [app universal_newlines].
    destruct (N.eqb_spec c CR); [done |]. by rewrite IH.
Qed.

Lemma universal_newlines_app a b :
  last a ≠ Some CR ->
  universal_newlines (a ++ b) = universal_newlines a ++ universal_newlines b.
Proof.
  remember (length a) as n eqn:Hn. revert a Hn.
  induction n as [n IH] using lt_wf_ind. intros a -> Ha.
  destruct a as [|c r]; [done |].
  cbn [app universal_newlines].
  destruct (N.eqb_spec c CR) as [-> | Hc].
  - destruct r as [|c' r']; [done |].
    rewrite last_cons_cons in Ha. cbn [app].
    destruct (N.eqb_spec c' LF).
    + destruct r' as [|c'' r''].
      * cbn. done.
      * rewrite last_cons_cons in Ha.
        rewrite (IH (length (c'' :: r''))); [done | cbn; lia | done | done].
    + change (c' :: r' ++ b) with ((c' :: r') ++ b).
      rewrite (IH (length (c' :: r'))); [done | cbn; lia | done | done].
  - destruct r as [|c' r']; [done |].
    rewrite last_cons_cons in Ha.
    rewrite (IH (length (c' :: r'))); [| cbn; lia | done | done].
    cbn [app universal_newlines]. by destruct (N.eqb_spec c CR).
Qed.

(** The same when the first text ends in a carriage return, as long as no
    line feed follows it. *)
Lemma universal_newlines_app_head a b :
  (last a = Some CR -> head b ≠ Some LF) ->
  universal_newlines (a ++ b) = universal_newlines a ++ universal_newlines b.
Proof.
  remember (length a) as n eqn:Hn. revert a Hn.
  induction n as [n IH] using lt_wf_ind. intros a -> Ha.
  destruct a as [|c r]; [done |].
  cbn [app universal_newlines].
  destruct (N.eqb_spec c CR) as [-> | Hc].
  - destruct r as [|c' r'].
    + cbn [app]. destruct b as [|c' b']; [done |].
      destruct (N.eqb_spec c' LF) as [-> | _]; [| done].
      exfalso. by apply Ha.
    + rewrite last_cons_cons in Ha. cbn [app].
      destruct (N.eqb_spec c' LF).
      * destruct r' as [|c'' r'']; [done |].
        rewrite last_cons_cons in Ha.
        rewrite (IH (length (c'' :: r''))); [done | cbn; lia | done | done].
      * change (c' :: r' ++ b) with ((c' :: r') ++ b).
        rewrite (IH (length (c' :: r'))); [done | cbn; lia | done | done].
  - destruct r as [|c' r']; [done |].
    rewrite last_cons_cons in Ha.
    rewrite (IH (length (c' :: r'))); [| cbn; lia | done | done].
    cbn [app universal_newlines]. by destruct (N.eqb_spec c CR).
Qed.

(** Only the line feed of a platform whose line end it is comes out of the
    translation as the first character. *)
Lemma head_translate_newlines p s :
  head (translate_newlines p s) = Some LF -> p = Posix /\ head s = Some LF.
Proof.
  destruct s as [|c r]; [done |].
  change (translate_newlines p (c :: r))
    with ((if c =? LF then linesep p else [c]) ++ translate_newlines p r).
  destruct (N.eqb_spec c LF) as [-> | Hc].
  - destruct p; [done |]. intros [=].
  - cbn [app head]. intros [= ->]. done.
Qed.

(** ** Running the methods *)

(** Tests between closed values are evaluated. *)
Ltac decide_closed :=
  repeat match goal with
  | |- context [@bool_decide ?P ?d] =>
    let b := eval vm_compute in (@bool_decide P d) in
    lazymatch b with
    | true => change (@bool_decide P d) with true
    | false => change (@bool_decide P d) with false
    end
  end.

Ltac unfold_methods :=
  unfold read, write, read_url, count_urls, _open_file, _close_file,
    try_finally, try_except, on_platform, set_file, get_self,
    mbind, M_bind, mret, M_ret, raise;
  cbn [fst snd path mode file].

Ltac run :=
  repeat (progress (
    cbn [dispatch fst snd path mode file h_closed h_path h_mode new_handle negb
         platform_of fs net trace log with_fs andb orb];
    decide_closed)).

Section Inversion.
Context {S X Y : Type}.

Lemma bind_return_inv (c : M S X) (k : X -> M S Y) s y st :
  (c ≫= k) s = (Return y, st) ->
  exists x s', c s = (Return x, s') /\ k x s' = (Return y, st).
Proof.
  unfold mbind, M_bind. destruct (c s) as [[x | e] s']; [eauto | done].
Qed.

Lemma try_finally_return_inv (body : M S X) (cleanup : M S unit) s x st :
  try_finally body cleanup s = (Return x, st) ->
  exists s', body s = (Return x, s').
Proof.
  unfold try_finally. destruct (body s) as [r s'].
  destruct (cleanup s') as [[[] | e] s'']; [| done].
  intros [= -> _]. eauto.
Qed.

Lemma try_except_return_inv (body : M S X) (clauses : list (clause S X))
    s x st :
  try_except body clauses s = (Return x, st) ->
  body s = (Return x, st)
  \/ exists e s' handler,
       body s = (Raise e, s') /\ dispatch clauses e = Some handler
       /\ handler s' = (Return x, st).
Proof.
  unfold try_except. destruct (body s) as [[x' | e] s']; [by left |].
  destruct (dispatch clauses e) as [handler |] eqn:E; [| done].
  intros H. right. by exists e, s', handler.
Qed.

End Inversion.

(** ** Construction *)

Lemma startswith_spec s p :
  startswith s p = true <-> exists rest, s = p ++ rest.
Proof.
  revert s. induction p as [|x p IH]; intros s; cbn [startswith].
  - split; [intros _; by exists s | done].
  - destruct s as [|y s].
    + split; [done | intros [rest H]; discriminate H].
    + rewrite andb_true_iff, N.eqb_eq, IH. split.
      * intros [-> [rest ->]]. by exists rest.
      * intros [rest H]. injection H as -> ->. split; [done | by exists rest].
Qed.

Lemma _is_url_spec path : _is_url path = true <-> has_scheme path.
Proof.
  unfold _is_url, has_scheme. rewrite existsb_exists. split.
  - intros (scheme & Hin & Hs). apply startswith_spec in Hs as [rest ->].
    exists scheme, rest. split; [| done]. by apply list_elem_of_In.
  - intros (scheme & rest & Hin & ->). exists scheme. split.
    + by apply list_elem_of_In.
    + apply startswith_spec. by exists rest.
Qed.

Lemma lower_valid_mode mode : mode ∈ valid_modes -> lower mode = mode.
Proof.
  unfold valid_modes. rewrite !elem_of_cons, elem_of_nil.
  intros [-> | [-> | [-> | [-> | []]]]]; reflexivity.
Qed.

(** C1, as the code has it: the mode is compared after lower-casing.
    The four mode words are their own lower-case form.  When the
    lower-cased mode is one of them and, for [url], the location starts
    with one of [http://], [https://], [ftp://], [file://], construction
    succeeds and stores the lower-cased mode.  When the lower-cased mode is
    none of them, construction fails with [ValueError].  When it is [url]
    and the location has none of the schemes, construction fails with
    [ValueError]. *)
Theorem C1_construction (path mode : str) :
  (mode ∈ valid_modes -> lower mode = mode)
  /\ (lower mode ∈ valid_modes ->
      (lower mode = pystr "url" -> has_scheme path) ->
      __init__ path mode
      = Return {| MyFile.path := path; MyFile.mode := lower mode;
                  file := None |})
  /\ (lower mode ∉ valid_modes ->
      __init__ path mode
      = Raise (Raised ValueError (InvalidMode mode valid_modes)))
  /\ (lower mode = pystr "url" -> ~ has_scheme path ->
      __init__ path mode = Raise (Raised ValueError (NotAnUrl path))).
Proof.
  split; [apply lower_valid_mode |]. unfold __init__. cbn [MyFile.mode].
  split_and!.
  - intros Hv Hu. rewrite bool_decide_eq_false_2 by (intros H; by apply H).
    destruct (bool_decide (lower mode = pystr "url")) eqn:E; [| done].
    apply bool_decide_eq_true_1 in E.
    apply Hu, _is_url_spec in E. by rewrite E.
  - intros Hv. by rewrite bool_decide_eq_true_2.
  - intros Hu Hs. rewrite bool_decide_eq_false_2.
    + rewrite bool_decide_eq_true_2 by done.
      destruct (_is_url path) eqn:E; [| done].
      by apply _is_url_spec in E.
    + intros H. apply H. rewrite Hu. unfold valid_modes.
      rewrite !elem_of_cons. tauto.
Qed.

Lemma C1_construction_witness :
  (pystr "url" ∈ valid_modes -> lower (pystr "url") = pystr "url")
  /\ (lower (pystr "Url") ∈ valid_modes ->
      (lower (pystr "Url") = pystr "url" -> has_scheme (pystr "http://a.com")) ->
      __init__ (pystr "http://a.com") (pystr "Url")
      = Return {| MyFile.path := pystr "http://a.com";
                  MyFile.mode := lower (pystr "Url"); file := None |})
  /\ __init__ (pystr "notes.txt") (pystr "rw")
     = Raise (Raised ValueError (InvalidMode (pystr "rw") valid_modes))
  /\ __init__ (pystr "a.com") (pystr "url")
     = Raise (Raised ValueError (NotAnUrl (pystr "a.com"))).
Proof.
  split_and!.
  - apply (C1_construction (pystr "a") (pystr "url")).
  - apply (C1_construction (pystr "http://a.com") (pystr "Url")).
  - apply (C1_construction (pystr "notes.txt") (pystr "rw")).
    apply (bool_decide_unpack _). vm_compute. reflexivity.
  - apply (C1_construction (pystr "a.com") (pystr "url")).
    + reflexivity.
    + intros H. apply _is_url_spec in H. vm_compute in H. discriminate H.
Defined.

(** C1 as stated fails: [READ] is not one of the four mode words, and
    construction with it succeeds. *)
Lemma C1_counterexample :
  (pystr "READ" ∉ valid_modes)
  /\ __init__ (pystr "notes.txt") (pystr "READ")
     = Return {| MyFile.path := pystr "notes.txt"; MyFile.mode := pystr "read";
                 file := None |}.
Proof.
  split.
  - apply (bool_decide_unpack _). vm_compute. reflexivity.
  - vm_compute. reflexivity.
Qed.

(** ** Mode gating *)

(** C2: [read] on an instance whose mode is not [read] (a [write]
    instance in particular) raises the mode-mismatch [ValueError], and
    [write] on an instance whose mode is neither [write] nor [append] does
    the same; the object and the platform, with its record of opened files,
    are left as they were. *)
Theorem C2_mode_gating (self : MyFile.t) (w : world) (content : str) :
  (mode self ≠ pystr "read" ->
   read (self, w)
   = (Raise (Raised ValueError (ReadNeedsReadMode (mode self))), (self, w)))
  /\ (mode self = pystr "write" -> mode self ≠ pystr "read")
  /\ (mode self ≠ pystr "write" -> mode self ≠ pystr "append" ->
      write content (self, w)
      = (Raise (Raised ValueError (WriteNeedsWriteMode (mode self))),
         (self, w))).
Proof.
  split_and!.
  - intros H. unfold_methods. by rewrite bool_decide_eq_true_2.
  - intros -> H. vm_compute in H. discriminate H.
  - intros H1 H2. unfold_methods.
    rewrite bool_decide_eq_true_2; [reflexivity |].
    rewrite !not_elem_of_cons. split_and!; [done | done | apply not_elem_of_nil].
Qed.

Lemma C2_mode_gating_witness :
  read (instance "notes.txt" "write", empty_world Posix)
  = (Raise (Raised ValueError (ReadNeedsReadMode (pystr "write"))),
     (instance "notes.txt" "write", empty_world Posix))
  /\ write (pystr "text") (instance "http://a.com" "url", empty_world Posix)
     = (Raise (Raised ValueError (WriteNeedsWriteMode (pystr "url"))),
        (instance "http://a.com" "url", empty_world Posix)).
Proof.
  split.
  - apply (C2_mode_gating (instance "notes.txt" "write") (empty_world Posix) []).
    intros H. vm_compute in H. discriminate H.
  - apply (C2_mode_gating (instance "http://a.com" "url") (empty_world Posix)
             (pystr "text")).
    + intros H. vm_compute in H. discriminate H.
    + intros H. vm_compute in H. discriminate H.
Defined.

(** ** Writing and reading files *)

Lemma write_ok self w content octets om :
  writes_as self om -> can_write (fs w !! path self) ->
  Codec.encode_utf8 (translate_newlines (platform_of w) content) = Some octets ->
  exists self' w',
    write content (self, w) = (Return true, (self', w'))
    /\ fs w' !! path self
       = Some (Regular (readable_after (fs w !! path self)) true
                 (content_before om (fs w !! path self) ++ octets))
    /\ platform_of w' = platform_of w.
Proof.
  destruct self as [p m f]. unfold writes_as. cbn [path mode].
  intros Hm Hw He.
  destruct Hm as [[-> ->] | [-> ->]]; unfold_methods; run; unfold open;
    destruct (fs w !! p) as [[r wr data | ? ?] |] eqn:Hp; cbn in Hw;
    try done; subst;
    run; unfold handle_write, handle_close; run;
    rewrite He, ?lookup_insert_eq, ?Hp; run.
  all: do 2 eexists; (split; [reflexivity |]); run;
    rewrite lookup_insert_eq; done.
Qed.

Lemma read_ok self w wr data text :
  mode self = pystr "read" ->
  fs w !! path self = Some (Regular true wr data) ->
  Codec.decode Codec.utf_8 data = Some text ->
  exists self' w',
    read (self, w) = (Return (universal_newlines text), (self', w')).
Proof.
  destruct self as [p m f]. cbn [path mode]. intros -> Hp Hd.
  unfold_methods; run; unfold open; rewrite Hp; run.
  unfold handle_read, handle_close; run. rewrite Hp, Hd; run.
  by do 2 eexists.
Qed.

Lemma read_open_fails self w e w' :
  mode self = pystr "read" ->
  open (path self) R w = (Raise e, w') ->
  fst (read (self, w))
  = Raise (if isinstance e FileNotFoundError
           then Raised IOError (FileNotFound (path self))
           else if isinstance e PermissionError
           then Raised IOError (NoReadPermission (path self))
           else e).
Proof.
  destruct self as [p m f]. cbn [path mode]. intros -> Ho.
  unfold_methods; run. rewrite Ho. run.
  destruct (isinstance e FileNotFoundError), (isinstance e PermissionError);
    run; destruct f as [[? ? []] |]; reflexivity.
Qed.

(** What a [read] returns after a [write], whatever the line ends of the
    text. *)
Lemma write_then_read (w : world) (writer reader : MyFile.t) (P C : str) :
  path writer = P -> mode writer = pystr "write" ->
  path reader = P -> mode reader = pystr "read" ->
  (fs w !! P = None \/ exists data, fs w !! P = Some (Regular true true data)) ->
  Forall scalar_value C ->
  exists writer' w' reader' w'',
    write C (writer, w) = (Return true, (writer', w'))
    /\ read (reader, w')
       = (Return (universal_newlines (translate_newlines (platform_of w) C)),
          (reader', w'')).
Proof.
  intros <- Hw Hp Hr Hfs HC.
  destruct (encode_utf8_scalar _
              (translate_newlines_scalar (platform_of w) C HC)) as [octets He].
  destruct (write_ok writer w C octets W) as (writer' & w' & Hwr & Hfs' & Hpl);
    [by left | by destruct Hfs as [-> | [data ->]] | done |].
  assert (fs w' !! path writer = Some (Regular true true octets)) as Hfile.
  { rewrite Hfs'. by destruct Hfs as [-> | [data ->]]. }
  rewrite <- Hp in Hfile.
  destruct (read_ok reader w' true octets _ Hr Hfile
              (decode_encode_utf8 _ _ He)) as (reader' & w'' & Hrd).
  by exists writer', w', reader', w''.
Qed.

(** C3, as the code has it: when a file can be created at the path (the
    path is outside the file system) or the path names a readable and
    writable file, and the text has no surrogate and no carriage return,
    writing the text through a [write] instance returns [True] and a fresh
    [read] instance on the same path then reads exactly the text. *)
Theorem C3_round_trip (w : world) (writer reader : MyFile.t) (P C : str) :
  path writer = P -> mode writer = pystr "write" ->
  path reader = P -> mode reader = pystr "read" ->
  (fs w !! P = None \/ exists data, fs w !! P = Some (Regular true true data)) ->
  Forall scalar_value C -> CR ∉ C ->
  exists writer' w' reader' w'',
    write C (writer, w) = (Return true, (writer', w'))
    /\ read (reader, w') = (Return C, (reader', w'')).
Proof.
  intros Hpw Hw Hp Hr Hfs HC Hcr.
  destruct (write_then_read w writer reader P C Hpw Hw Hp Hr Hfs HC)
    as (writer' & w' & reader' & w'' & Hwr & Hrd).
  rewrite universal_newlines_translate in Hrd by done.
  by exists writer', w', reader', w''.
Qed.

Lemma C3_round_trip_witness :
  exists writer' w' reader' w'',
    write (pystr "hello") (instance "f" "write", empty_world Posix)
    = (Return true, (writer', w'))
    /\ read (instance "f" "read", w')
       = (Return (pystr "hello"), (reader', w'')).
Proof.
  apply (C3_round_trip (empty_world Posix) (instance "f" "write")
           (instance "f" "read") (pystr "f") (pystr "hello")).
  - reflexivity.
  - reflexivity.
  - reflexivity.
  - reflexivity.
  - left. reflexivity.
  - repeat constructor; vm_compute; left; reflexivity.
  - apply (bool_decide_unpack _). vm_compute. reflexivity.
Defined.

(** C3 as stated fails: a carriage return written to a new file is read
    back as a line feed. *)
Lemma C3_counterexample :
  let written := write [CR] (instance "f" "write", empty_world Posix) in
  __init__ (pystr "f") (pystr "write") = Return (instance "f" "write")
  /\ __init__ (pystr "f") (pystr "read") = Return (instance "f" "read")
  /\ fst written = Return true
  /\ fst (read (instance "f" "read", after written)) = Return [LF]
  /\ [LF] ≠ [CR].
Proof. vm_compute. repeat split. discriminate. Qed.

(** C4, as the code has it: when a file can be created at the path (the
    path is outside the file system), or the path names a readable and
    writable file holding UTF-8 text, and the two texts have no surrogate
    and no carriage return, two [append] instances write them with [True]
    and a [read] instance then reads what the file read as before, followed
    by the first text and the second.  One case is left out: the file ends
    in a carriage return and the appended text begins with a line feed, on
    a platform whose line end is the line feed. *)
Theorem C4_append_concatenation
    (w : world) (first second reader : MyFile.t) (P C1 C2 old : str) :
  path first = P -> mode first = pystr "append" ->
  path second = P -> mode second = pystr "append" ->
  path reader = P -> mode reader = pystr "read" ->
  holds_text w P old ->
  (last old = Some CR -> platform_of w = Posix -> head (C1 ++ C2) ≠ Some LF) ->
  Forall scalar_value C1 -> CR ∉ C1 ->
  Forall scalar_value C2 -> CR ∉ C2 ->
  (is_Some (fs w !! P) ->
   exists reader0 w0,
     read (reader, w) = (Return (universal_newlines old), (reader0, w0)))
  /\ exists first' w1 second' w2 reader' w3,
       write C1 (first, w) = (Return true, (first', w1))
       /\ write C2 (second, w1) = (Return true, (second', w2))
       /\ read (reader, w2)
          = (Return (universal_newlines old ++ C1 ++ C2), (reader', w3)).
Proof.
  intros <- Hm1 Hp2 Hm2 Hp3 Hm3 Hold Hlast HC1 Hcr1 HC2 Hcr2. split.
  { intros Hsome. destruct Hold as [[Hnone _] | (data & Hfile & Hd)].
    - rewrite Hnone in Hsome. by destruct Hsome.
    - rewrite <- Hp3 in Hfile. apply (read_ok reader w true data old); done. }
  destruct (encode_utf8_scalar _
              (translate_newlines_scalar (platform_of w) C1 HC1)) as [o1 He1].
  destruct (encode_utf8_scalar _
              (translate_newlines_scalar (platform_of w) C2 HC2)) as [o2 He2].
  assert (exists prior, content_before A (fs w !! path first) = prior
                        /\ readable_after (fs w !! path first) = true
                        /\ can_write (fs w !! path first)
                        /\ Codec.encode_utf8 old = Some prior)
    as (prior & Hprior & Hread & Hcan & Heo).
  { destruct Hold as [[-> ->] | (data & -> & Hd)].
    - by exists [].
    - exists data. split_and!; try done. by apply encode_decode_utf8. }
  destruct (write_ok first w C1 o1 A) as (first' & w1 & Hw1 & Hfs1 & Hpl1);
    [by right | done | done |].
  rewrite Hprior, Hread in Hfs1.
  destruct (write_ok second w1 C2 o2 A) as (second' & w2 & Hw2 & Hfs2 & Hpl2);
    [by right | by rewrite Hp2, Hfs1 | by rewrite Hpl1 |].
  rewrite Hp2, Hfs1 in Hfs2. cbn [content_before readable_after] in Hfs2.
  rewrite <- Hp3 in Hfs2.
  assert (Codec.encode_utf8
            (old ++ translate_newlines (platform_of w) C1
                 ++ translate_newlines (platform_of w) C2)
          = Some ((prior ++ o1) ++ o2)) as Henc.
  { rewrite !encode_utf8_app, Heo, He1, He2. by rewrite app_assoc. }
  destruct (read_ok reader w2 true _ _ Hm3 Hfs2 (decode_encode_utf8 _ _ Henc))
    as (reader' & w3 & Hrd).
  rewrite <- translate_newlines_app in Hrd.
  rewrite universal_newlines_app_head, universal_newlines_translate in Hrd.
  - by exists first', w1, second', w2, reader', w3.
  - rewrite not_elem_of_app. done.
  - intros Hcr Hhead. apply head_translate_newlines in Hhead as [Hp Hh].
    by apply Hlast.
Qed.

Lemma C4_append_concatenation_witness :
  let w := world_with "log.txt" (Regular true true ["a"%byte; x0d]) in
  (is_Some (fs w !! pystr "log.txt") ->
   exists reader0 w0,
     read (instance "log.txt" "read", w)
     = (Return (pystr "a" ++ [LF]), (reader0, w0)))
  /\ exists first' w1 second' w2 reader' w3,
       write (pystr "bc") (instance "log.txt" "append", w)
       = (Return true, (first', w1))
       /\ write [LF; 0x64] (instance "log.txt" "append", w1)
          = (Return true, (second', w2))
       /\ read (instance "log.txt" "read", w2)
          = (Return ((pystr "a" ++ [LF]) ++ pystr "bc" ++ [LF; 0x64]),
             (reader', w3)).
Proof.
  apply (C4_append_concatenation
           (world_with "log.txt" (Regular true true ["a"%byte; x0d]))
           (instance "log.txt" "append") (instance "log.txt" "append")
           (instance "log.txt" "read") (pystr "log.txt")
           (pystr "bc") [LF; 0x64] (pystr "a" ++ [CR])).
  - reflexivity.
  - reflexivity.
  - reflexivity.
  - reflexivity.
  - reflexivity.
  - reflexivity.
  - right. exists ["a"%byte; x0d]. split; reflexivity.
  - intros _ _. vm_compute. discriminate.
  - apply (bool_decide_unpack _). vm_compute. reflexivity.
  - apply (bool_decide_unpack _). vm_compute. reflexivity.
  - apply (bool_decide_unpack _). vm_compute. reflexivity.
  - apply (bool_decide_unpack _). vm_compute. reflexivity.
Defined.

(** C4 as stated fails: a carriage return appended first and a line feed
    appended second are read back as one line feed. *)
Lemma C4_counterexample :
  let first := write [CR] (instance "f" "append", empty_world Posix) in
  let second := write [LF] (instance "f" "append", after first) in
  __init__ (pystr "f") (pystr "append") = Return (instance "f" "append")
  /\ __init__ (pystr "f") (pystr "read") = Return (instance "f" "read")
  /\ fst first = Return true
  /\ fst second = Return true
  /\ fst (read (instance "f" "read", after second)) = Return [LF]
  /\ [LF] ≠ [CR] ++ [LF].
Proof. vm_compute. repeat split. discriminate. Qed.

(** ** Fetching *)

Lemma read_url_ok self w content :
  mode self = pystr "url" ->
  net w (request_of self) = Response content ->
  read_url (self, w)
  = (Return (decode_content content),
     (self, log (Requested (request_of self)) w)).
Proof.
  destruct self as [p m f]. cbn [mode]. intros -> Hn.
  unfold_methods; run. unfold urlopen_read. rewrite Hn. reflexivity.
Qed.

Lemma read_url_fails self w e :
  mode self = pystr "url" ->
  net w (request_of self) = Failure e ->
  read_url (self, w)
  = (Raise (read_url_error (path self) e),
     (self, log (Requested (request_of self)) w)).
Proof.
  destruct self as [p m f]. cbn [mode]. intros -> Hn.
  unfold_methods; run. unfold urlopen_read. rewrite Hn.
  destruct e as [c msg | reason | code reason]; [destruct c |..]; reflexivity.
Qed.

Lemma read_url_error_caught path e :
  isinstance e Exception = true ->
  exists m, read_url_error path e = Raised IOError m.
Proof.
  destruct e as [c msg | reason | code reason]; [| by eexists..].
  destruct c; intros H; try discriminate H; by eexists.
Qed.

Lemma count_urls_ok self w content :
  mode self = pystr "url" ->
  net w (request_of self) = Response content ->
  count_urls (self, w)
  = (Return (size (collect_urls (decode_content content))),
     (self, log (Requested (request_of self)) w)).
Proof.
  intros Hm Hn. pose proof (read_url_ok self w content Hm Hn) as Hr.
  unfold count_urls, try_except, mbind, M_bind, get_self. cbn [fst snd].
  rewrite bool_decide_eq_false_2 by (intros H; by apply H).
  rewrite Hr. reflexivity.
Qed.

Lemma count_urls_fails self w e m :
  mode self = pystr "url" ->
  net w (request_of self) = Failure e ->
  read_url_error (path self) e = Raised IOError m ->
  count_urls (self, w)
  = (Return 0%nat,
     (self, log (Printed (CountUrlsWarning m))
              (log (Requested (request_of self)) w))).
Proof.
  intros Hm Hn He. pose proof (read_url_fails self w e Hm Hn) as Hr.
  rewrite He in Hr.
  unfold count_urls, try_except, mbind, M_bind, get_self. cbn [fst snd].
  rewrite bool_decide_eq_false_2 by (intros H; by apply H).
  rewrite Hr. reflexivity.
Qed.

(** C5: on a [url] instance whose fetch fails with an HTTP error,
    [read_url] raises an [IOError] whose message carries the status code,
    and [count_urls] prints a warning and returns 0.  The same holds for
    every failure of the fetch that is an [Exception]: [read_url] raises an
    [IOError], [count_urls] prints a warning with its message and
    returns 0. *)
Theorem C5_swallow_and_default (self : MyFile.t) (w : world) :
  mode self = pystr "url" ->
  let w' := log (Requested (request_of self)) w in
  (forall code reason,
     net w (request_of self) = Failure (RaisedHTTPError code reason) ->
     read_url (self, w)
     = (Raise (Raised IOError (HttpFailed code reason (path self))), (self, w'))
     /\ count_urls (self, w)
        = (Return 0%nat,
           (self,
            log (Printed (CountUrlsWarning
                            (HttpFailed code reason (path self)))) w')))
  /\ (forall e,
        net w (request_of self) = Failure e -> isinstance e Exception = true ->
        exists m,
          read_url (self, w) = (Raise (Raised IOError m), (self, w'))
          /\ count_urls (self, w)
             = (Return 0%nat, (self, log (Printed (CountUrlsWarning m)) w'))).
Proof.
  intros Hm w'. split.
  - intros code reason Hn. split.
    + apply (read_url_fails self w _ Hm Hn).
    + by apply (count_urls_fails self w (RaisedHTTPError code reason)).
  - intros e Hn He.
    destruct (read_url_error_caught (path self) e He) as [m Hm'].
    exists m. split.
    + rewrite <- Hm'. apply (read_url_fails self w _ Hm Hn).
    + by apply (count_urls_fails self w e).
Qed.

Lemma C5_swallow_and_default_witness :
  let self := instance "http://a.com/missing" "url" in
  let w' := log (Requested (request_of self)) (failing_world http_404) in
  read_url (self, failing_world http_404)
  = (Raise (Raised IOError
              (HttpFailed 404 (Text (pystr "Not Found")) (path self))),
     (self, w'))
  /\ count_urls (self, failing_world http_404)
     = (Return 0%nat,
        (self,
         log (Printed (CountUrlsWarning
                         (HttpFailed 404 (Text (pystr "Not Found"))
                            (path self)))) w')).
Proof.
  intros self w'.
  apply (C5_swallow_and_default self (failing_world http_404)); reflexivity.
Defined.

(** ** The errors of [read] *)

(** The two classes that [read] translates have no exception in common. *)
Lemma permission_not_missing e :
  isinstance e PermissionError = true -> isinstance e FileNotFoundError = false.
Proof.
  destruct e as [c m | reason | code reason]; [| done | done].
  by destruct c.
Qed.

(** C6, as the code has it: on a [read] instance, when [open] raises
    [FileNotFoundError], [read] raises an [IOError] with the not-found
    message; when [open] raises [PermissionError], [read] raises an
    [IOError] with the no-permission message; every other exception of
    [open] leaves [read] as it is.  The two [IOError]s have the same class
    and differ by their message. *)
Theorem C6_read_errors (self : MyFile.t) (w w' : world) (e : exc) :
  mode self = pystr "read" ->
  open (path self) R w = (Raise e, w') ->
  (isinstance e FileNotFoundError = true ->
   fst (read (self, w)) = Raise (Raised IOError (FileNotFound (path self))))
  /\ (isinstance e PermissionError = true ->
      fst (read (self, w))
      = Raise (Raised IOError (NoReadPermission (path self))))
  /\ (isinstance e FileNotFoundError = false ->
      isinstance e PermissionError = false ->
      fst (read (self, w)) = Raise e)
  /\ class_of (Raised IOError (FileNotFound (path self)))
     = class_of (Raised IOError (NoReadPermission (path self)))
  /\ FileNotFound (path self) ≠ NoReadPermission (path self).
Proof.
  intros Hm Ho. rewrite (read_open_fails self w e w' Hm Ho). split_and!.
  - by intros ->.
  - intros Hp. by rewrite (permission_not_missing e Hp), Hp.
  - by intros -> ->.
  - reflexivity.
  - discriminate.
Qed.

Lemma C6_read_errors_witness :
  let unreadable := world_with "notes.txt" (Regular false true []) in
  fst (read (instance "notes.txt" "read", empty_world Posix))
  = Raise (Raised IOError (FileNotFound (pystr "notes.txt")))
  /\ fst (read (instance "notes.txt" "read", unreadable))
     = Raise (Raised IOError (NoReadPermission (pystr "notes.txt"))).
Proof.
  intros unreadable. split.
  - apply (proj1 (C6_read_errors (instance "notes.txt" "read")
                    (empty_world Posix) (empty_world Posix)
                    (Raised FileNotFoundError
                       (StrOSError ENOENT (pystr "notes.txt")))
                    eq_refl eq_refl)).
    reflexivity.
  - apply (proj1 (proj2 (C6_read_errors (instance "notes.txt" "read")
                            unreadable unreadable
                            (Raised PermissionError
                               (StrOSError EACCES (pystr "notes.txt")))
                            eq_refl eq_refl))).
    reflexivity.
Defined.

(** C6 as stated fails: a missing file and an unreadable file make [read]
    raise exceptions of one and the same class, [OSError]. *)
Lemma C6_counterexample :
  let missing := read (instance "notes.txt" "read", empty_world Posix) in
  let unreadable :=
    read (instance "notes.txt" "read",
          world_with "notes.txt" (Regular false true [])) in
  __init__ (pystr "notes.txt") (pystr "read")
  = Return (instance "notes.txt" "read")
  /\ raised_by missing = Some (Builtin OSError)
  /\ raised_by unreadable = Some (Builtin OSError)
  /\ raised_by missing = raised_by unreadable.
Proof. vm_compute. repeat split. Qed.

(** A failure of [read] that no clause translates keeps its own class: a
    file that is not UTF-8 raises [UnicodeDecodeError], which is not an
    [IOError]; a directory raises [IsADirectoryError]. *)
Remark read_untranslated_errors :
  raised_by (read (instance "notes.txt" "read",
                   world_with "notes.txt" (Regular true true [xff])))
  = Some (Builtin UnicodeDecodeError)
  /\ issubclass UnicodeDecodeError IOError = false
  /\ forall m,
       raised_by (read (instance "docs" "read",
                        world_with "docs"
                          (Unopenable (Raised IsADirectoryError m)
                                      (Raised IsADirectoryError m))))
       = Some (Builtin IsADirectoryError).
Proof. split_and!; [by vm_compute | by vm_compute | intros m; by vm_compute]. Qed.

(** ** Decoding the response *)

Lemma first_decoding_None encs content :
  first_decoding encs content = None
  <-> forall encoding, encoding ∈ encs -> Codec.decode encoding content = None.
Proof.
  induction encs as [|e encs IH]; cbn [first_decoding].
  - split; [intros _ ? H; by apply elem_of_nil in H | done].
  - destruct (Codec.decode e content) as [text|] eqn:E.
    + split; [done |]. intros H. specialize (H e (list_elem_of_here _ _)).
      congruence.
    + rewrite IH. split.
      * intros H e' [-> | Hin]%elem_of_cons; [done | by apply H].
      * intros H e' Hin. apply H. by apply list_elem_of_further.
Qed.

Lemma first_decoding_first encs content i encoding text :
  encs !! i = Some encoding ->
  Codec.decode encoding content = Some text ->
  (forall j earlier, (j < i)%nat -> encs !! j = Some earlier ->
                     Codec.decode earlier content = None) ->
  first_decoding encs content = Some (encoding, text).
Proof.
  revert i. induction encs as [|e encs IH]; intros i Hi Hd Hearlier; [done |].
  cbn [first_decoding]. destruct i as [|i].
  - injection Hi as ->. by rewrite Hd.
  - rewrite (Hearlier 0%nat e) by (done || lia).
    apply (IH i); [done | done |].
    intros j earlier Hj Hl. apply (Hearlier (S j)); [lia | done].
Qed.

(** C7: the encodings are tried in the order UTF-8, CP1251, KOI8-R,
    ISO-8859-1; the text returned for a body is the decoding by the first
    encoding that decodes it; the fallback is taken exactly when all four
    fail, and then the text is the UTF-8 decoding with substitution;
    [read_url] returns this text for the body the fetch delivers. *)
Theorem C7_decode_chain (content : bytes) :
  encodings = [Codec.utf_8; Codec.cp1251; Codec.koi8_r; Codec.iso_8859_1]
  /\ (forall i encoding text,
        encodings !! i = Some encoding ->
        Codec.decode encoding content = Some text ->
        (forall j earlier, (j < i)%nat -> encodings !! j = Some earlier ->
                           Codec.decode earlier content = None) ->
        decode_content content = text)
  /\ (first_decoding encodings content = None
      <-> forall encoding, encoding ∈ encodings ->
                           Codec.decode encoding content = None)
  /\ (first_decoding encodings content = None ->
      decode_content content = Codec.decode_utf8_replace content)
  /\ (forall self w,
        mode self = pystr "url" ->
        net w (request_of self) = Response content ->
        read_url (self, w)
        = (Return (decode_content content),
           (self, log (Requested (request_of self)) w))).
Proof.
  split_and!.
  - reflexivity.
  - intros i encoding text Hi Hd Hearlier. unfold decode_content.
    by rewrite (first_decoding_first _ _ i encoding text).
  - apply first_decoding_None.
  - intros H. unfold decode_content. by rewrite H.
  - intros self w. apply read_url_ok.
Qed.

Lemma C7_decode_chain_witness :
  decode_content [xff] = [0x44F]
  /\ decode_content [x98] = [0x2264].
Proof.
  split.
  - apply (C7_decode_chain [xff]) with (i := 1%nat) (encoding := Codec.cp1251).
    + reflexivity.
    + reflexivity.
    + intros j earlier Hj Hl. destruct j; [| lia].
      injection Hl as <-. reflexivity.
  - apply (C7_decode_chain [x98]) with (i := 2%nat) (encoding := Codec.koi8_r).
    + reflexivity.
    + reflexivity.
    + intros j earlier Hj Hl. destruct j as [|[|j]]; [| | lia].
      * injection Hl as <-. reflexivity.
      * injection Hl as <-. reflexivity.
Defined.

(** Every octet has a KOI8-R character, so the chain always stops at the
    third encoding at the latest. *)
Remark koi8_r_decodes_everything (content : bytes) :
  is_Some (Codec.decode Codec.koi8_r content).
Proof.
  unfold Codec.decode. induction content as [|b content [text IH]].
  - by eexists.
  - cbn [map Codec.charmap_decode]. rewrite IH.
    destruct b; vm_compute; by eexists.
Qed.

(** ** Counting links *)

Lemma collect_urls_found html_content :
  collect_urls html_content = list_to_set (found html_content).
Proof.
  unfold collect_urls, found, url_patterns_re.
  cbn [foldl app map concat]. rewrite !list_to_set_app_L. cbn [list_to_set].
  apply set_eq. intros u. rewrite !elem_of_union, !elem_of_empty. tauto.
Qed.

Lemma size_list_to_set_remove_dups (l : list str) :
  size (list_to_set l : gset str) = length (remove_dups l).
Proof.
  rewrite <- (size_list_to_set (C := gset str) (remove_dups l))
    by apply NoDup_remove_dups.
  f_equal. apply set_eq. intros x.
  by rewrite !elem_of_list_to_set, elem_of_remove_dups.
Qed.

(** C8: on a [url] instance whose fetch delivers a body, [count_urls]
    returns the number of distinct strings among all those that the four
    patterns find in the decoded page, so that a string found several times
    counts once; for the page with one [href], one [src] and one bare link
    it returns 3, and it still returns 3 when the page is repeated. *)
Theorem C8_link_count (self : MyFile.t) (w : world) (content : bytes) :
  mode self = pystr "url" ->
  net w (request_of self) = Response content ->
  count_urls (self, w)
  = (Return (length (remove_dups (found (decode_content content)))),
     (self, log (Requested (request_of self)) w))
  /\ (decode_content content = page_abc ->
      fst (count_urls (self, w)) = Return 3%nat)
  /\ (decode_content content = page_abc ++ page_abc ->
      fst (count_urls (self, w)) = Return 3%nat).
Proof.
  intros Hm Hn. rewrite (count_urls_ok self w content Hm Hn).
  rewrite collect_urls_found, size_list_to_set_remove_dups.
  split_and!; [done | intros -> | intros ->]; cbn [fst]; f_equal;
    by vm_compute.
Qed.

Lemma C8_link_count_witness :
  fst (count_urls (instance "http://a.com" "url",
                   serving_world (ascii_bytes page_abc))) = Return 3%nat
  /\ fst (count_urls (instance "http://a.com" "url",
                      serving_world (ascii_bytes (page_abc ++ page_abc))))
     = Return 3%nat.
Proof.
  split.
  - apply (proj1 (proj2 (C8_link_count (instance "http://a.com" "url")
                           (serving_world (ascii_bytes page_abc))
                           (ascii_bytes page_abc) eq_refl eq_refl))).
    vm_compute. reflexivity.
  - apply (proj2 (proj2 (C8_link_count (instance "http://a.com" "url")
                           (serving_world (ascii_bytes (page_abc ++ page_abc)))
                           (ascii_bytes (page_abc ++ page_abc))
                           eq_refl eq_refl))).
    vm_compute. reflexivity.
Defined.

(** C9: [count_urls] on an instance whose mode is not [url] raises the
    mode-mismatch [ValueError] and leaves everything as it was, although
    that exception is an [Exception], which the handler would turn into 0;
    on a [url] instance every failure of the fetch that is an [Exception]
    gives 0. *)
Theorem C9_mode_check_first (self : MyFile.t) (w : world) :
  (mode self ≠ pystr "url" ->
   count_urls (self, w)
   = (Raise (Raised ValueError (CountUrlsNeedsUrlMode (mode self))), (self, w)))
  /\ isinstance (Raised ValueError (CountUrlsNeedsUrlMode (mode self))) Exception
     = true
  /\ (mode self = pystr "url" ->
      forall e, net w (request_of self) = Failure e ->
                isinstance e Exception = true ->
                fst (count_urls (self, w)) = Return 0%nat).
Proof.
  split_and!.
  - intros H. unfold_methods. by rewrite bool_decide_eq_true_2.
  - reflexivity.
  - intros Hm e Hn He.
    destruct (read_url_error_caught (path self) e He) as [m Hm'].
    by rewrite (count_urls_fails self w e m).
Qed.

Lemma C9_mode_check_first_witness :
  count_urls (instance "notes.txt" "read", failing_world http_404)
  = (Raise (Raised ValueError (CountUrlsNeedsUrlMode (pystr "read"))),
     (instance "notes.txt" "read", failing_world http_404))
  /\ fst (count_urls (instance "http://a.com" "url", failing_world http_404))
     = Return 0%nat.
Proof.
  split.
  - apply (C9_mode_check_first (instance "notes.txt" "read")
             (failing_world http_404)).
    intros H. vm_compute in H. discriminate H.
  - apply (proj2 (proj2 (C9_mode_check_first (instance "http://a.com" "url")
                           (failing_world http_404))) eq_refl http_404);
      reflexivity.
Defined.

(** ** The flag of [write] *)

(** C10: whenever [write] returns, the flag it returns is [True]; a call
    either returns [True] or raises. *)
Theorem C10_write_flag (self : MyFile.t) (w : world) (content : str) :
  (forall flag st, write content (self, w) = (Return flag, st) -> flag = true)
  /\ ((exists st, write content (self, w) = (Return true, st))
      \/ (exists e st, write content (self, w) = (Raise e, st))).
Proof.
  assert (forall flag st,
            write content (self, w) = (Return flag, st) -> flag = true) as Hflag.
  { intros flag st. unfold write.
    intros (self0 & s0 & [= <- <-] & H)%bind_return_inv.
    destruct (bool_decide _); [done |].
    apply try_finally_return_inv in H as [s1 H].
    apply try_except_return_inv in H as [H | (e & s2 & handler & _ & Hd & Hh)].
    - apply bind_return_inv in H as ([] & s2 & _ & H).
      apply bind_return_inv in H as (self' & s3 & _ & H).
      destruct (file self'); [| done].
      apply bind_return_inv in H as (n & s4 & _ & H).
      by injection H as <- _.
    - cbn [dispatch] in Hd.
      destruct (isinstance e PermissionError); [by injection Hd as <- |].
      destruct (isinstance e Exception); [by injection Hd as <- | done]. }
  split; [exact Hflag |].
  destruct (write content (self, w)) as [[flag | e] st] eqn:E.
  - left. exists st. by rewrite (Hflag flag st).
  - right. by exists e, st.
Qed.

Lemma C10_write_flag_witness :
  sample_write = (Return true, snd sample_write) /\ true = true.
Proof.
  split; [reflexivity |].
  apply (proj1 (C10_write_flag (instance "notes.txt" "write")
                  (empty_world Posix) (pystr "text"))
           true (snd sample_write)).
  reflexivity.
Defined.

(** * The rest of the class *)

(** ** Closing the file *)

Ltac decide_isinstance :=
  repeat match goal with
  | |- context [isinstance ?e ?c] =>
    let b := eval vm_compute in (isinstance e c) in
    lazymatch b with
    | true => change (isinstance e c) with true
    | false => change (isinstance e c) with false
    end
  end.

Ltac run' := repeat (progress (run; decide_isinstance)).


Lemma close_file_closes (s : state) :
  exists s', _close_file s = (Return tt, s') /\ holds_open (fst s') = false.
Proof. destruct s as [[p m [[hp hm []] |]] w]; by eexists. Qed.

(** X1: [_close_file] never fails and leaves no open file; when the
    object holds no open file (none was opened, or it is closed already) it
    changes nothing, so that closing twice is closing once. *)
Theorem close_file_idempotent (s : state) :
  (holds_open (fst s) = false -> _close_file s = (Return tt, s))
  /\ exists s',
       _close_file s = (Return tt, s')
       /\ holds_open (fst s') = false
       /\ _close_file s' = (Return tt, s').
Proof.
  destruct s as [[p m [[hp hm []] |]] w]; (split; [intros H; try done |]);
    eexists; split_and!; reflexivity.
Qed.

Lemma close_file_idempotent_witness :
  _close_file (instance "notes.txt" "read", empty_world Posix)
  = (Return tt, (instance "notes.txt" "read", empty_world Posix)).
Proof.
  apply (proj1 (close_file_idempotent
                  (instance "notes.txt" "read", empty_world Posix))).
  reflexivity.
Defined.

Ltac released :=
  split;
  [ reflexivity
  | intros Ho;
    first [ discriminate Ho | left; reflexivity
          | right; rewrite <- ?app_assoc; reflexivity ] ].

(** What a call of [read] leaves behind, whether it returns or raises. *)
Lemma read_effects (self : MyFile.t) (w : world) :
  mode self = pystr "read" ->
  let r := read (self, w) in
  fs (after r) = fs w
  /\ holds_open (fst (snd r)) = false
  /\ (holds_open self = false ->
      trace (after r) = trace w
      \/ trace (after r)
         = trace w ++ [Opened (path self) R; Closed (path self)]).
Proof.
  destruct self as [p m f]. unfold holds_open, after.
  cbn [path mode file]. intros ->.
  unfold_methods; run; unfold open.
  destruct (fs w !! p) as [[[] wr data | e1 e2] |] eqn:Hp; run'.
  - unfold handle_read, handle_close; run'. rewrite Hp.
    destruct (Codec.decode Codec.utf_8 data); run';
      (split; [reflexivity |]); released.
  - destruct f as [[? ? []] |]; run'; (split; [reflexivity |]); released.
  - destruct (isinstance e1 FileNotFoundError); run';
      [| destruct (isinstance e1 PermissionError); run'];
      destruct f as [[? ? []] |]; run'; (split; [reflexivity |]); released.
  - destruct f as [[? ? []] |]; run'; (split; [reflexivity |]); released.
Qed.






(** ** The context manager *)

Lemma enter_opens self w om h w1 :
  opens_as self om ->
  open (path self) om w = (Return h, w1) ->
  __enter__ (self, w)
  = (Return {| path := path self; mode := mode self; file := Some h |},
     ({| path := path self; mode := mode self; file := Some h |}, w1)).
Proof.
  destruct self as [p m f]. unfold opens_as, writes_as. cbn [path mode].
  intros Hm Ho.
  destruct Hm as [[-> ->] | [[-> ->] | [-> ->]]];
    unfold __enter__; unfold_methods; run; rewrite Ho; reflexivity.
Qed.

(** X4: [__enter__] translates nothing.  When the file cannot be opened,
    the exception of [open] leaves [__enter__] as it is and the block of the
    [with] statement does not run; for a missing file that is
    [FileNotFoundError], where [read] raises [IOError]. *)
Theorem enter_propagates (self : MyFile.t) (w w' : world) (om : open_mode)
    (e : exc) :
  opens_as self om ->
  open (path self) om w = (Raise e, w') ->
  __enter__ (self, w) = (Raise e, (self, w'))
  /\ (forall X (block : M state X),
        with_block block (self, w) = (Raise e, (self, w')))
  /\ (om = R -> fs w !! path self = None ->
      raised_by (__enter__ (self, w)) = Some (Builtin FileNotFoundError)
      /\ raised_by (read (self, w)) = Some (Builtin OSError)).
Proof.
  destruct self as [p m f]. unfold opens_as, writes_as. cbn [path mode].
  intros Hm Ho.
  assert (__enter__ ({| path := p; mode := m; file := f |}, w)
          = (Raise e, ({| path := p; mode := m; file := f |}, w'))) as He.
  { destruct Hm as [[-> ->] | [[-> ->] | [-> ->]]];
      unfold __enter__; unfold_methods; run; rewrite Ho; reflexivity. }
  split_and!.
  - exact He.
  - intros X block. unfold with_block, mbind, M_bind. by rewrite He.
  - intros -> Hp. unfold raised_by. rewrite He. cbn [fst].
    unfold open in Ho. rewrite Hp in Ho. injection Ho as <- <-.
    split; [reflexivity |].
    destruct Hm as [[-> _] | [[_ [=]] | [_ [=]]]].
    erewrite (read_open_fails {| path := p; mode := pystr "read"; file := f |} w);
      [| done | unfold open; cbn [path]; rewrite Hp; reflexivity].
    reflexivity.
Qed.

Lemma enter_propagates_witness :
  raised_by (__enter__ (instance "notes.txt" "read", empty_world Posix))
  = Some (Builtin FileNotFoundError)
  /\ raised_by (read (instance "notes.txt" "read", empty_world Posix))
     = Some (Builtin OSError).
Proof.
  apply (proj2 (proj2 (enter_propagates (instance "notes.txt" "read")
                         (empty_world Posix) (empty_world Posix) R
                         (Raised FileNotFoundError
                            (StrOSError ENOENT (pystr "notes.txt")))
                         (or_introl (conj eq_refl eq_refl)) eq_refl))
           eq_refl eq_refl).
Defined.

(** X5: once [__enter__] has opened the file, whatever the block of the
    [with] statement does, provided it leaves the mode of the object alone:
    the result of the block, or the exception it raises, is that of the
    whole statement, and the statement leaves no open file. *)
Theorem with_block_closes {X} (self : MyFile.t) (w w1 : world)
    (om : open_mode) (h : handle) (block : M state X) :
  opens_as self om ->
  open (path self) om w = (Return h, w1) ->
  let opened := {| path := path self; mode := mode self; file := Some h |} in
  mode (fst (snd (block (opened, w1)))) = mode self ->
  exists st,
    with_block block (self, w) = (fst (block (opened, w1)), st)
    /\ holds_open (fst st) = false.
Proof.
  intros Hm Ho opened Hkept.
  unfold with_block, mbind, M_bind. rewrite (enter_opens self w om h w1 Hm Ho).
  fold opened. unfold try_finally.
  destruct (block (opened, w1)) as [r st1]. cbn [fst snd] in *.
  assert (__exit__ st1 = _close_file st1) as ->.
  { unfold __exit__, mbind, M_bind, get_self. cbn [fst]. rewrite Hkept.
    destruct Hm as [[-> _] | [[-> _] | [-> _]]]; by decide_closed. }
  destruct (close_file_closes st1) as (st & -> & Hc). by exists st.
Qed.

Lemma with_block_closes_witness :
  let self := instance "notes.txt" "write" in
  let w := empty_world Posix in
  exists st,
    with_block (X := unit) (raise (Raised ValueError (Text []))) (self, w)
    = (Raise (Raised ValueError (Text [])), st)
    /\ holds_open (fst st) = false.
Proof.
  intros self w.
  apply (with_block_closes (X := unit) self w
           (snd (open (path self) W w)) W (new_handle (path self) W)
           (raise (Raised ValueError (Text [])))
           (or_intror (or_introl (conj eq_refl eq_refl))) eq_refl eq_refl).
Defined.

(** X6: entering a [with] statement on an object in mode [write]
    empties an existing writable file, even when the block writes nothing. *)
Theorem with_block_truncates (self : MyFile.t) (w : world) (r : bool)
    (data : bytes) :
  mode self = pystr "write" ->
  fs w !! path self = Some (Regular r true data) ->
  exists self' w',
    with_block (mret tt) (self, w) = (Return tt, (self', w'))
    /\ fs w' !! path self = Some (Regular r true [])
    /\ holds_open self' = false.
Proof.
  destruct self as [p m f]. cbn [path mode]. intros -> Hp.
  unfold with_block, __enter__, __exit__; unfold_methods; run.
  unfold open. rewrite Hp. run. unfold handle_close; run.
  do 2 eexists. split_and!; [reflexivity | | reflexivity].
  run. by rewrite lookup_insert_eq.
Qed.

Lemma with_block_truncates_witness :
  exists self' w',
    with_block (mret tt)
      (instance "notes.txt" "write",
       world_with "notes.txt" (Regular true true ["x"%byte]))
    = (Return tt, (self', w'))
    /\ fs w' !! pystr "notes.txt" = Some (Regular true true [])
    /\ holds_open self' = false.
Proof.
  apply (with_block_truncates (instance "notes.txt" "write")
           (world_with "notes.txt" (Regular true true ["x"%byte]))
           true ["x"%byte]); reflexivity.
Defined.

(** X7: [read] called inside a [with] statement on the same object
    opens the file a second time: the file is opened twice and the code
    closes one handle only, the second; the text is read and no file is
    changed. *)
Theorem with_block_opens_twice (self : MyFile.t) (w : world) (wr : bool)
    (data : bytes) (text : str) :
  mode self = pystr "read" ->
  fs w !! path self = Some (Regular true wr data) ->
  Codec.decode Codec.utf_8 data = Some text ->
  exists self' w',
    with_block read (self, w) = (Return (universal_newlines text), (self', w'))
    /\ trace w'
       = trace w ++ [Opened (path self) R; Opened (path self) R;
                     Closed (path self)]
    /\ fs w' = fs w
    /\ holds_open self' = false.
Proof.
  destruct self as [p m f]. cbn [path mode]. intros -> Hp Hd.
  unfold with_block, __enter__, __exit__; unfold_methods; run.
  unfold open. rewrite Hp. run. rewrite Hp. run.
  unfold handle_read, handle_close; run. rewrite Hp, Hd. run.
  do 2 eexists. split_and!; [reflexivity | | reflexivity | reflexivity].
  run. by rewrite <- !app_assoc.
Qed.

Lemma with_block_opens_twice_witness :
  exists self' w',
    with_block read
      (instance "notes.txt" "read",
       world_with "notes.txt" (Regular true true ["x"%byte]))
    = (Return (universal_newlines (pystr "x")), (self', w'))
    /\ trace w'
       = [] ++ [Opened (pystr "notes.txt") R; Opened (pystr "notes.txt") R;
                Closed (pystr "notes.txt")]
    /\ fs w' = fs (world_with "notes.txt" (Regular true true ["x"%byte]))
    /\ holds_open self' = false.
Proof.
  apply (with_block_opens_twice (instance "notes.txt" "read")
           (world_with "notes.txt" (Regular true true ["x"%byte]))
           true ["x"%byte] (pystr "x")); reflexivity.
Defined.

(** ** [__repr__] *)

(** X8: for objects whose mode is one of the four mode words, as the
    constructor leaves them, the text of [__repr__] tells the location and
    the mode: two objects with the same text have the same location and the
    same mode. *)
Theorem repr_injective (a b : MyFile.t) :
  mode a ∈ valid_modes -> mode b ∈ valid_modes ->
  __repr__ a = __repr__ b ->
  path a = path b /\ mode a = mode b.
Proof.
  destruct a as [pa ma fa], b as [pb mb fb]. unfold __repr__, valid_modes.
  cbn [path mode]. rewrite !elem_of_cons, !elem_of_nil.
  intros Ha Hb H. apply app_inv_head in H.
  assert (ma = mb) as <-.
  { apply (f_equal reverse) in H. rewrite !reverse_app in H.
    destruct Ha as [-> | [-> | [-> | [-> | []]]]],
             Hb as [-> | [-> | [-> | [-> | []]]]];
      try reflexivity; exfalso; vm_compute in H; congruence. }
  split; [| done]. by apply app_inv_tail in H.
Qed.

Lemma repr_injective_witness :
  path (instance "a" "read") = path (instance "a" "read")
  /\ mode (instance "a" "read") = mode (instance "a" "read").
Proof.
  apply (repr_injective (instance "a" "read") (instance "a" "read")).
  - apply (bool_decide_unpack _). vm_compute. reflexivity.
  - apply (bool_decide_unpack _). vm_compute. reflexivity.
  - reflexivity.
Defined.

(** ** Failures of [write], [read] and the fetch *)

Lemma utf8_encode_char_surrogate c :
  surrogate c -> Codec.utf8_encode_char c = None.
Proof.
  unfold surrogate, Codec.utf8_encode_char. intros [H1 H2].
  settle_tests; done.
Qed.

Lemma utf8_encode_surrogate s c :
  c ∈ s -> surrogate c -> Codec.utf8_encode s = None.
Proof.
  intros Hin Hc. induction Hin as [c s | c c' s Hin IH];
    cbn [Codec.utf8_encode].
  - by rewrite utf8_encode_char_surrogate.
  - rewrite (IH Hc). by destruct (Codec.utf8_encode_char c').
Qed.

Lemma translate_newlines_elem p s c :
  c ∈ s -> c ≠ LF -> c ∈ translate_newlines p s.
Proof.
  intros Hin Hc. unfold translate_newlines.
  apply list_elem_of_In, in_flat_map. exists c. split.
  - by apply list_elem_of_In.
  - destruct (N.eqb_spec c LF); [done | by left].
Qed.

Lemma encode_utf8_surrogate p s c :
  c ∈ s -> surrogate c -> Codec.encode_utf8 (translate_newlines p s) = None.
Proof.
  intros Hin Hc. unfold Codec.encode_utf8.
  rewrite (utf8_encode_surrogate _ c); [done | | done].
  apply translate_newlines_elem; [done |].
  unfold surrogate, LF in *. lia.
Qed.

(** X9: the two ways [write] fails on a file it reaches.  On a file
    that may not be written it raises the [IOError] of the missing
    permission and no file changes.  On a text with a surrogate code point,
    which has no UTF-8 encoding, it raises the [IOError] that wraps the
    encoding error, after the file has been opened: in mode [write] the
    file is left empty (created empty when it was missing), in mode
    [append] it keeps its bytes. *)
Theorem write_errors (self : MyFile.t) (w : world) (content : str)
    (om : open_mode) :
  writes_as self om ->
  (forall r data,
     fs w !! path self = Some (Regular r false data) ->
     fst (write content (self, w))
     = Raise (Raised IOError (NoWritePermission (path self)))
     /\ fs (after (write content (self, w))) = fs w)
  /\ (forall c,
        c ∈ content -> surrogate c -> can_write (fs w !! path self) ->
        fst (write content (self, w))
        = Raise (Raised IOError (WriteFailed (StrUnicodeError (pystr "utf-8"))))
        /\ fs (after (write content (self, w))) !! path self
           = Some (Regular (readable_after (fs w !! path self)) true
                     (content_before om (fs w !! path self)))).
Proof.
  destruct self as [p m f]. unfold writes_as, after. cbn [path mode].
  intros Hm. split.
  - intros r data Hp.
    destruct Hm as [[-> ->] | [-> ->]]; unfold_methods; run; unfold open;
      rewrite Hp; run';
      destruct f as [[? ? []] |]; run'; done.
  - intros c Hin Hc Hw.
    pose proof (encode_utf8_surrogate (platform_of w) content c Hin Hc) as He.
    destruct Hm as [[-> ->] | [-> ->]]; unfold_methods; run; unfold open;
      destruct (fs w !! p) as [[r wr data | ? ?] |] eqn:Hp; cbn in Hw;
      try done; subst; run';
      unfold handle_write, handle_close; run'; rewrite He; run';
      (split; [reflexivity |]); rewrite ?lookup_insert_eq, ?Hp; done.
Qed.

Lemma write_errors_witness :
  let blocked := world_with "notes.txt" (Regular true false ["x"%byte]) in
  let kept := world_with "notes.txt" (Regular true true ["x"%byte]) in
  fst (write (pystr "text") (instance "notes.txt" "write", blocked))
  = Raise (Raised IOError (NoWritePermission (pystr "notes.txt")))
  /\ fs (after (write [0xD800] (instance "notes.txt" "write", kept)))
     !! pystr "notes.txt"
     = Some (Regular true true [])
  /\ fs (after (write [0xD800] (instance "notes.txt" "append", kept)))
     !! pystr "notes.txt"
     = Some (Regular true true ["x"%byte]).
Proof.
  intros blocked kept. split_and!.
  - apply (proj1 (write_errors (instance "notes.txt" "write") blocked
                    (pystr "text") W (or_introl (conj eq_refl eq_refl)))
             true ["x"%byte] eq_refl).
  - apply (proj2 (write_errors (instance "notes.txt" "write") kept
                    [0xD800] W (or_introl (conj eq_refl eq_refl)))
             0xD800).
    + apply list_elem_of_here.
    + unfold surrogate. lia.
    + reflexivity.
  - apply (proj2 (write_errors (instance "notes.txt" "append") kept
                    [0xD800] A (or_intror (conj eq_refl eq_refl)))
             0xD800).
    + apply list_elem_of_here.
    + unfold surrogate. lia.
    + reflexivity.
Defined.

(** X10: [read] translates [FileNotFoundError] and [PermissionError]
    and nothing else.  A readable file whose bytes are not UTF-8 makes it
    raise [UnicodeDecodeError], which is not an [IOError]; and an exception
    of [open] that is of neither of the two classes leaves [read] as it
    is. *)
Theorem read_untranslated (self : MyFile.t) (w : world) :
  mode self = pystr "read" ->
  (forall wr data,
     fs w !! path self = Some (Regular true wr data) ->
     Codec.decode Codec.utf_8 data = None ->
     fst (read (self, w))
     = Raise (Raised UnicodeDecodeError (StrUnicodeError (pystr "utf-8")))
     /\ isinstance (Raised UnicodeDecodeError (StrUnicodeError (pystr "utf-8")))
          IOError = false)
  /\ (forall e w',
        open (path self) R w = (Raise e, w') ->
        isinstance e FileNotFoundError = false ->
        isinstance e PermissionError = false ->
        fst (read (self, w)) = Raise e).
Proof.
  intros Hm. split.
  - destruct self as [p m f]. cbn [path mode] in *. subst m.
    intros wr data Hp Hd. split; [| reflexivity].
    unfold_methods; run; unfold open; rewrite Hp; run.
    unfold handle_read, handle_close; run. rewrite Hp, Hd. run'.
    reflexivity.
  - intros e w' Ho H1 H2. rewrite (read_open_fails self w e w' Hm Ho).
    by rewrite H1, H2.
Qed.

Lemma read_untranslated_witness :
  fst (read (instance "notes.txt" "read",
             world_with "notes.txt" (Regular true true [xff])))
  = Raise (Raised UnicodeDecodeError (StrUnicodeError (pystr "utf-8")))
  /\ forall m,
       fst (read (instance "docs" "read",
                  world_with "docs"
                    (Unopenable (Raised IsADirectoryError m)
                                (Raised IsADirectoryError m))))
       = Raise (Raised IsADirectoryError m).
Proof.
  split.
  - apply (proj1 (read_untranslated (instance "notes.txt" "read")
                    (world_with "notes.txt" (Regular true true [xff]))
                    eq_refl) true [xff]); reflexivity.
  - intros m.
    apply (proj2 (read_untranslated (instance "docs" "read")
                    (world_with "docs"
                       (Unopenable (Raised IsADirectoryError m)
                                   (Raised IsADirectoryError m)))
                    eq_refl) (Raised IsADirectoryError m)
             (world_with "docs"
                (Unopenable (Raised IsADirectoryError m)
                            (Raised IsADirectoryError m))));
      reflexivity.
Defined.

Lemma read_url_error_same path e :
  isinstance e Exception = false -> read_url_error path e = e.
Proof.
  intros He. destruct e as [c m | reason | code reason]; try discriminate He.
  destruct c; try discriminate He; reflexivity.
Qed.

(** X11: when the fetch fails with an error that is not an HTTP error.
    A [URLError] makes [read_url] raise the [IOError] that carries its
    reason and the location, a [TimeoutError] the [IOError] of the timeout.
    An exception that is not an [Exception], such as [KeyboardInterrupt],
    leaves [read_url] as it is, and it leaves [count_urls] too: no 0 is
    returned and no warning is printed. *)
Theorem fetch_failures (self : MyFile.t) (w : world) (e : exc) :
  mode self = pystr "url" ->
  net w (request_of self) = Failure e ->
  (forall reason,
     e = RaisedURLError reason ->
     fst (read_url (self, w))
     = Raise (Raised IOError (UrlFailed reason (path self))))
  /\ (forall c m,
        e = Raised c m -> issubclass c TimeoutError = true ->
        fst (read_url (self, w)) = Raise (Raised IOError (TimedOut (path self))))
  /\ (isinstance e Exception = false ->
      fst (read_url (self, w)) = Raise e
      /\ fst (count_urls (self, w)) = Raise e
      /\ trace (after (count_urls (self, w)))
         = trace w ++ [Requested (request_of self)]).
Proof.
  intros Hm Hn. pose proof (read_url_fails self w e Hm Hn) as Hr.
  split_and!.
  - intros reason ->. by rewrite Hr.
  - intros c m -> Hc. rewrite Hr. cbn [fst read_url_error]. by rewrite Hc.
  - intros He. rewrite (read_url_error_same _ _ He) in Hr.
    split; [by rewrite Hr |].
    unfold count_urls, try_except, mbind, M_bind, get_self, after.
    cbn [fst snd].
    rewrite bool_decide_eq_false_2 by (intros H; by apply H).
    rewrite Hr. cbn [dispatch].
    change (isinstance e Exception) with (isinstance e (Builtin Exception)) in He.
    rewrite He. done.
Qed.

Lemma fetch_failures_witness :
  let interrupted := Raised KeyboardInterrupt (Text []) in
  fst (count_urls (instance "http://a.com" "url", failing_world interrupted))
  = Raise interrupted.
Proof.
  intros interrupted.
  apply (proj2 (proj2 (fetch_failures (instance "http://a.com" "url")
                         (failing_world interrupted) interrupted
                         eq_refl eq_refl)) eq_refl).
Defined.

(** ** The text of a page *)

Lemma is_scalar_spec c : is_scalar c = true -> scalar_value c.
Proof.
  unfold is_scalar, scalar_value.
  rewrite orb_true_iff, andb_true_iff, !N.ltb_lt, N.leb_le. tauto.
Qed.

Lemma utf8_encode_char_Some_scalar c l :
  Codec.utf8_encode_char c = Some l -> scalar_value c.
Proof.
  unfold Codec.utf8_encode_char, scalar_value. intros E.
  repeat match type of E with
  | context [N.ltb ?a ?b] => destruct (N.ltb_spec a b)
  | context [N.leb ?a ?b] => destruct (N.leb_spec a b)
  end; cbn [andb] in E; try discriminate E; lia.
Qed.

Lemma utf8_encode_Some_scalar s l :
  Codec.utf8_encode s = Some l -> Forall scalar_value s.
Proof.
  revert l. induction s as [|c s IH]; intros l E; [constructor |].
  cbn [Codec.utf8_encode] in E.
  destruct (Codec.utf8_encode_char c) as [a|] eqn:Ec; [| discriminate E].
  destruct (Codec.utf8_encode s) as [b|]; [| discriminate E].
  constructor; [by apply (utf8_encode_char_Some_scalar c a) | by apply (IH b)].
Qed.

Lemma charmap_decode_scalar table bs text :
  Forall (fun o => match o with Some c => is_scalar c = true | None => True end)
         table ->
  Forall (fun b => b < 256) bs ->
  Codec.charmap_decode table bs = Some text -> Forall scalar_value text.
Proof.
  intros Ht. revert text. induction bs as [|b bs IH]; intros text Hb E.
  - injection E as <-. constructor.
  - cbn [Codec.charmap_decode] in E. inversion Hb as [|? ? Hb0 Hbs]; subst.
    destruct (Codec.charmap_char table b) as [c|] eqn:Ec; [| discriminate E].
    destruct (Codec.charmap_decode table bs) as [t|]; [| discriminate E].
    injection E as <-. constructor; [| by apply IH].
    unfold Codec.charmap_char in Ec. destruct (N.ltb_spec b 0x80).
    + injection Ec as <-. unfold scalar_value. lia.
    + destruct (table !! N.to_nat (b - 0x80)) as [[c'|]|] eqn:El;
        try discriminate Ec. injection Ec as <-.
      apply is_scalar_spec.
      by apply (Forall_lookup_1 _ _ _ _ Ht El).
Qed.

Lemma octets_bounded (content : bytes) :
  Forall (fun b => b < 256) (map Byte.to_N content).
Proof.
  induction content as [|b content IH]; constructor; [| done].
  pose proof (Byte.to_N_bounded b). lia.
Qed.

Lemma table_scalar_cp1251 :
  Forall (fun o => match o with Some c => is_scalar c = true | None => True end)
         Codec.cp1251_table.
Proof.
  apply Forall_forall. intros o Ho.
  repeat (apply elem_of_cons in Ho as [-> | Ho]; [by vm_compute |]).
  by apply elem_of_nil in Ho.
Qed.

Lemma table_scalar_koi8_r :
  Forall (fun o => match o with Some c => is_scalar c = true | None => True end)
         Codec.koi8_r_table.
Proof.
  apply Forall_forall. intros o Ho.
  repeat (apply elem_of_cons in Ho as [-> | Ho]; [by vm_compute |]).
  by apply elem_of_nil in Ho.
Qed.

Lemma decode_scalar encoding content text :
  Codec.decode encoding content = Some text -> Forall scalar_value text.
Proof.
  destruct encoding; unfold Codec.decode; intros H.
  - apply utf8_encode_decode in H. by apply utf8_encode_Some_scalar in H.
  - apply (charmap_decode_scalar _ _ _ table_scalar_cp1251
             (octets_bounded content) H).
  - apply (charmap_decode_scalar _ _ _ table_scalar_koi8_r
             (octets_bounded content) H).
  - injection H as <-. eapply Forall_impl; [apply octets_bounded |].
    intros b Hb. unfold scalar_value. cbn in Hb. lia.
Qed.

Lemma first_decoding_Some encs content encoding text :
  first_decoding encs content = Some (encoding, text) ->
  encoding ∈ encs /\ Codec.decode encoding content = Some text.
Proof.
  induction encs as [|e encs IH]; [done |]. cbn [first_decoding].
  destruct (Codec.decode e content) as [t|] eqn:E.
  - intros [= <- <-]. split; [apply list_elem_of_here | done].
  - intros H. destruct (IH H) as [Hin Hd].
    split; [by apply list_elem_of_further | done].
Qed.

Lemma cp1251_undefined b :
  Codec.charmap_char Codec.cp1251_table (Byte.to_N b) = None <-> b = x98.
Proof. destruct b; vm_compute; split; congruence. Qed.

Lemma cp1251_decodes content :
  x98 ∉ content -> is_Some (Codec.decode Codec.cp1251 content).
Proof.
  unfold Codec.decode. induction content as [|b content IH]; intros Hb.
  - by eexists.
  - apply not_elem_of_cons in Hb as [Hb Hrest].
    destruct (IH Hrest) as [t Ht]. cbn [map Codec.charmap_decode].
    destruct (Codec.charmap_char Codec.cp1251_table (Byte.to_N b)) eqn:E.
    + rewrite Ht. by eexists.
    + by apply cp1251_undefined in E.
Qed.

Lemma cp1251_fails content :
  x98 ∈ content -> Codec.decode Codec.cp1251 content = None.
Proof.
  unfold Codec.decode. induction content as [|b content IH]; intros Hin.
  - by apply elem_of_nil in Hin.
  - cbn [map Codec.charmap_decode].
    apply elem_of_cons in Hin as [<- | Hin].
    + by rewrite (proj2 (cp1251_undefined x98) eq_refl).
    + rewrite (IH Hin). by destruct (Codec.charmap_char _ _).
Qed.

Lemma first_decoding_early (content : bytes) :
  exists encoding text,
    first_decoding encodings content = Some (encoding, text)
    /\ encoding ≠ Codec.iso_8859_1.
Proof.
  unfold encodings. cbn [first_decoding].
  destruct (Codec.decode Codec.utf_8 content) as [t|]; [by eexists _, _ |].
  destruct (Codec.decode Codec.cp1251 content) as [t|]; [by eexists _, _ |].
  destruct (koi8_r_decodes_everything content) as [t ->]. by eexists _, _.
Qed.

Lemma decode_content_scalar (content : bytes) :
  Forall scalar_value (decode_content content).
Proof.
  destruct (first_decoding_early content) as (encoding & text & Hf & _).
  unfold decode_content. rewrite Hf.
  apply first_decoding_Some in Hf as [_ Hd].
  by apply (decode_scalar encoding content).
Qed.

(** X12: the text that [read_url] makes of a body.  It has no surrogate
    code point, so that it can always be written as UTF-8.  One of the
    first three encodings always decodes the body: ISO-8859-1 and the final
    decoding with replacement are never reached.  A body that is not UTF-8
    is read as CP1251 unless it holds the byte 0x98, the one byte CP1251
    leaves undefined, and as KOI8-R when it does. *)
Theorem decoded_text (content : bytes) :
  Forall scalar_value (decode_content content)
  /\ (exists encoding text,
        first_decoding encodings content = Some (encoding, text)
        /\ encoding ≠ Codec.iso_8859_1)
  /\ (Codec.decode Codec.utf_8 content = None ->
      (x98 ∉ content ->
       Codec.decode Codec.cp1251 content = Some (decode_content content))
      /\ (x98 ∈ content ->
          Codec.decode Codec.koi8_r content = Some (decode_content content))).
Proof.
  split_and!.
  - apply decode_content_scalar.
  - apply first_decoding_early.
  - intros Hu. unfold decode_content, encodings. cbn [first_decoding].
    rewrite Hu. split.
    + intros Hb. destruct (cp1251_decodes content Hb) as [t Ht]. by rewrite Ht.
    + intros Hb. rewrite (cp1251_fails content Hb).
      destruct (koi8_r_decodes_everything content) as [t Ht]. by rewrite Ht.
Qed.

Lemma decoded_text_witness :
  Codec.decode Codec.cp1251 [xe9] = Some (decode_content [xe9])
  /\ Codec.decode Codec.koi8_r [x98] = Some (decode_content [x98]).
Proof.
  split.
  - apply (proj2 (proj2 (decoded_text [xe9])) eq_refl).
    intros [H | H]%elem_of_cons; [discriminate H | by apply elem_of_nil in H].
  - apply (proj2 (proj2 (decoded_text [x98])) eq_refl).
    apply list_elem_of_here.
Defined.

(** * The console *)

(** ** [write_url] *)

Lemma call_return {X} obj (method : M state X) s x obj' w' :
  method (obj, host s) = (Return x, (obj', w')) ->
  call obj method s = (Done (x, obj'), with_host w' s).
Proof. unfold call. by intros ->. Qed.

Lemma call_raise {X} obj (method : M state X) s e obj' w' :
  method (obj, host s) = (Raise e, (obj', w')) ->
  call obj method s = (Thrown (Inner e), with_host w' s).
Proof. unfold call. by intros ->. Qed.

Lemma construct_writer filepath s :
  construct filepath (pystr "write") s
  = (Done {| path := filepath; mode := pystr "write"; file := None |}, s).
Proof. reflexivity. Qed.

Ltac unfold_console :=
  unfold write_url, attempt, say, throw, mbind, P_bind, mret, P_ret.

Ltac run_console :=
  cbn [select keys screen host with_keys with_host shown fst snd].

Lemma write_url_mode_gate (self : MyFile.t) (filepath : str) (s : session) :
  mode self ≠ pystr "url" ->
  write_url filepath self s = (Thrown (WriteUrlNeedsUrlMode (mode self)), s).
Proof. intros H. unfold write_url. by rewrite bool_decide_eq_true_2. Qed.

Lemma translate_newlines_posix s : translate_newlines Posix s = s.
Proof.
  induction s as [|c s IH]; [done |].
  change (translate_newlines Posix (c :: s))
    with ((if c =? LF then [LF] else [c]) ++ translate_newlines Posix s).
  rewrite IH. by destruct (N.eqb_spec c LF) as [-> |].
Qed.

Lemma page_encodes p content :
  is_Some (Codec.encode_utf8 (translate_newlines p (decode_content content))).
Proof.
  apply encode_utf8_scalar, translate_newlines_scalar, decode_content_scalar.
Qed.

(** The run of [write_url] when the page is fetched, the file may be
    written and the text has the given encoding. *)
Lemma write_url_ok self filepath s content octets :
  mode self = pystr "url" ->
  net (host s) (request_of self) = Response content ->
  can_write (fs (host s) !! filepath) ->
  Codec.encode_utf8
    (translate_newlines (platform_of (host s)) (decode_content content))
  = Some octets ->
  exists s',
    write_url filepath self s = (Done (true, self), s')
    /\ fs (host s') !! filepath
       = Some (Regular (readable_after (fs (host s) !! filepath)) true octets)
    /\ screen s' = screen s ++ [saved_line filepath]
    /\ keys s' = keys s.
Proof.
  intros Hm Hn Hw He.
  pose proof (read_url_ok self (host s) content Hm Hn) as Hr.
  destruct (write_ok {| path := filepath; mode := pystr "write"; file := None |}
              (log (Requested (request_of self)) (host s))
              (decode_content content) octets W)
    as (writer' & w' & Hwr & Hfs & _); [by left | done | done |].
  cbn [path fs log] in Hfs.
  unfold write_url. rewrite bool_decide_eq_false_2 by (intros H; by apply H).
  unfold_console. rewrite (call_return _ _ _ _ _ _ Hr).
  rewrite construct_writer.
  erewrite call_return by (run_console; exact Hwr).
  run_console. eexists. split_and!; try reflexivity.
  run_console. rewrite Hfs. by destruct (fs (host s) !! filepath) as [[]|].
Qed.

(** What leaves the [try] of [write_url] when its body raises. *)
Lemma attempt_rethrows {X} (body : P X) s e s0 :
  body s = (Thrown e, s0) ->
  attempt body [(Builtin Exception, fun e => throw (SaveFailed e))] s
  = (Thrown (if is_a e Exception then SaveFailed e else e), s0).
Proof.
  intros Hb. unfold attempt. rewrite Hb. cbn [select].
  change (is_a e (Builtin Exception)) with (is_a e Exception).
  by destruct (is_a e Exception).
Qed.

(** The run of [write_url] when the fetch fails. *)
Lemma write_url_fetch self filepath s e :
  mode self = pystr "url" ->
  net (host s) (request_of self) = Failure e ->
  write_url filepath self s
  = (Thrown (if is_a (Inner (read_url_error (path self) e)) Exception
             then SaveFailed (Inner (read_url_error (path self) e))
             else Inner (read_url_error (path self) e)),
     with_host (log (Requested (request_of self)) (host s)) s).
Proof.
  intros Hm Hn. pose proof (read_url_fails self (host s) e Hm Hn) as Hr.
  unfold write_url. rewrite bool_decide_eq_false_2 by (intros H; by apply H).
  apply attempt_rethrows. unfold mbind, P_bind.
  by rewrite (call_raise _ _ _ _ _ _ Hr).
Qed.

(** The run of [write_url] when the page is fetched and [write] raises. *)
Lemma write_url_write_raises self filepath s content e obj' w' :
  mode self = pystr "url" ->
  net (host s) (request_of self) = Response content ->
  write (decode_content content)
    ({| path := filepath; mode := pystr "write"; file := None |},
     log (Requested (request_of self)) (host s))
  = (Raise e, (obj', w')) ->
  write_url filepath self s
  = (Thrown (if is_a (Inner e) Exception then SaveFailed (Inner e)
             else Inner e),
     with_host w' s).
Proof.
  intros Hm Hn Hwr. pose proof (read_url_ok self (host s) content Hm Hn) as Hr.
  unfold write_url. rewrite bool_decide_eq_false_2 by (intros H; by apply H).
  erewrite attempt_rethrows; [reflexivity |]. unfold mbind, P_bind.
  rewrite (call_return _ _ _ _ _ _ Hr). rewrite construct_writer.
  erewrite call_raise by (run_console; exact Hwr). reflexivity.
Qed.

Lemma write_denied filepath w content r data :
  fs w !! filepath = Some (Regular r false data) ->
  write content ({| path := filepath; mode := pystr "write"; file := None |}, w)
  = (Raise (Raised IOError (NoWritePermission filepath)),
     ({| path := filepath; mode := pystr "write"; file := None |}, w)).
Proof.
  intros Hp. unfold_methods; run. unfold open. rewrite Hp. run'. reflexivity.
Qed.

Lemma write_unopenable filepath w content e1 e2 :
  fs w !! filepath = Some (Unopenable e1 e2) ->
  exists e st,
    write content
      ({| path := filepath; mode := pystr "write"; file := None |}, w)
    = (Raise e, st).
Proof.
  intros Hp. unfold_methods; run. unfold open. rewrite Hp. run'.
  destruct (isinstance e2 PermissionError); run';
    [| destruct (isinstance e2 Exception); run']; by eexists _, _.
Qed.

(** X13: in mode [url], when the page is fetched and the file may be
    written (a file can be created at the path, or the path names a
    writable file), [write_url] returns
    [True]: the file then holds the UTF-8 encoding of the text that
    [read_url] makes of the page, with the line ends of the platform, in
    place of what it held; one line is printed, naming the file; the object
    is unchanged and the keyboard is not read. *)
Theorem write_url_saves (self : MyFile.t) (filepath : str) (s : session)
    (content : bytes) :
  mode self = pystr "url" ->
  net (host s) (request_of self) = Response content ->
  can_write (fs (host s) !! filepath) ->
  exists octets s',
    Codec.encode_utf8
      (translate_newlines (platform_of (host s)) (decode_content content))
    = Some octets
    /\ write_url filepath self s = (Done (true, self), s')
    /\ fs (host s') !! filepath
       = Some (Regular (readable_after (fs (host s) !! filepath)) true octets)
    /\ screen s' = screen s ++ [saved_line filepath]
    /\ keys s' = keys s.
Proof.
  intros Hm Hn Hw.
  destruct (page_encodes (platform_of (host s)) content) as [octets He].
  destruct (write_url_ok self filepath s content octets Hm Hn Hw He)
    as (s' & H). by exists octets, s'.
Qed.

Lemma write_url_saves_witness :
  exists octets s',
    Codec.encode_utf8
      (translate_newlines Posix (decode_content (ascii_bytes page_abc)))
    = Some octets
    /\ write_url (pystr "page.html") (instance "http://a.com" "url")
         (start (serving_world (ascii_bytes page_abc)))
       = (Done (true, instance "http://a.com" "url"), s')
    /\ fs (host s') !! pystr "page.html" = Some (Regular true true octets)
    /\ screen s' = [] ++ [saved_line (pystr "page.html")]
    /\ keys s' = [].
Proof.
  apply (write_url_saves (instance "http://a.com" "url") (pystr "page.html")
           (start (serving_world (ascii_bytes page_abc)))
           (ascii_bytes page_abc)); reflexivity.
Defined.

(** X14: a page saved by [write_url] reads back.  When a file can be
    created at the path, or the path names a readable and writable file,
    and the text of the page has no carriage return, [read] on the saved
    file returns the text that [read_url] returns for the page. *)
Theorem saved_page_reads_back (self reader : MyFile.t) (filepath : str)
    (s : session) (content : bytes) :
  mode self = pystr "url" ->
  net (host s) (request_of self) = Response content ->
  (fs (host s) !! filepath = None
   \/ exists data, fs (host s) !! filepath = Some (Regular true true data)) ->
  path reader = filepath -> mode reader = pystr "read" ->
  CR ∉ decode_content content ->
  exists s' reader' w',
    write_url filepath self s = (Done (true, self), s')
    /\ fst (read_url (self, host s)) = Return (decode_content content)
    /\ read (reader, host s') = (Return (decode_content content), (reader', w')).
Proof.
  intros Hm Hn Hfs Hp Hr Hcr.
  destruct (page_encodes (platform_of (host s)) content) as [octets He].
  destruct (write_url_ok self filepath s content octets Hm Hn)
    as (s' & Hw & Hfile & _);
    [by destruct Hfs as [-> | [data ->]] | done |].
  assert (fs (host s') !! path reader = Some (Regular true true octets)) as Hf.
  { rewrite Hp, Hfile. by destruct Hfs as [-> | [data ->]]. }
  destruct (read_ok reader (host s') true octets _ Hr Hf
              (decode_encode_utf8 _ _ He)) as (reader' & w' & Hrd).
  rewrite universal_newlines_translate in Hrd by done.
  exists s', reader', w'. split_and!; [done | | done].
  by rewrite (read_url_ok self (host s) content Hm Hn).
Qed.

Lemma saved_page_reads_back_witness :
  exists s' reader' w',
    write_url (pystr "page.html") (instance "http://a.com" "url")
      (start (serving_world (ascii_bytes page_abc)))
    = (Done (true, instance "http://a.com" "url"), s')
    /\ fst (read_url (instance "http://a.com" "url",
                      serving_world (ascii_bytes page_abc)))
       = Return (decode_content (ascii_bytes page_abc))
    /\ read (instance "page.html" "read", host s')
       = (Return (decode_content (ascii_bytes page_abc)), (reader', w')).
Proof.
  apply (saved_page_reads_back (instance "http://a.com" "url")
           (instance "page.html" "read") (pystr "page.html")
           (start (serving_world (ascii_bytes page_abc)))
           (ascii_bytes page_abc)).
  - reflexivity.
  - reflexivity.
  - left. reflexivity.
  - reflexivity.
  - reflexivity.
  - apply (bool_decide_unpack _). vm_compute. reflexivity.
Defined.

(** X15: the saved file is not always a copy of the page.  On a platform
    whose line end is the line feed, the bytes that [write_url] saves are
    the bytes of the body exactly when the body is valid UTF-8; a body in
    another encoding is saved converted to UTF-8. *)
Theorem saved_bytes (self : MyFile.t) (filepath : str) (s : session)
    (content : bytes) :
  mode self = pystr "url" ->
  net (host s) (request_of self) = Response content ->
  can_write (fs (host s) !! filepath) ->
  platform_of (host s) = Posix ->
  exists octets s',
    write_url filepath self s = (Done (true, self), s')
    /\ fs (host s') !! filepath
       = Some (Regular (readable_after (fs (host s) !! filepath)) true octets)
    /\ (octets = content <-> is_Some (Codec.decode Codec.utf_8 content)).
Proof.
  intros Hm Hn Hw Hposix.
  destruct (page_encodes (platform_of (host s)) content) as [octets He].
  destruct (write_url_ok self filepath s content octets Hm Hn Hw He)
    as (s' & Hwr & Hfile & _).
  rewrite Hposix, translate_newlines_posix in He.
  exists octets, s'. split_and!; [done | done |]. split.
  - intros <-. rewrite (decode_encode_utf8 _ _ He). by eexists.
  - intros [text Hd].
    assert (decode_content content = text) as Htext.
    { unfold decode_content, encodings. cbn [first_decoding]. by rewrite Hd. }
    rewrite Htext in He. apply encode_decode_utf8 in Hd. congruence.
Qed.

Lemma saved_bytes_witness :
  exists octets s',
    write_url (pystr "page.html") (instance "http://a.com" "url")
      (start (serving_world [xe9]))
    = (Done (true, instance "http://a.com" "url"), s')
    /\ fs (host s') !! pystr "page.html" = Some (Regular true true octets)
    /\ (octets = [xe9] <-> is_Some (Codec.decode Codec.utf_8 [xe9])).
Proof.
  apply (saved_bytes (instance "http://a.com" "url") (pystr "page.html")
           (start (serving_world [xe9])) [xe9]); reflexivity.
Defined.

(** X16: when the fetch fails, [write_url] touches no file.  A failure
    that is an [Exception] reaches the caller as the [IOError] of line 228
    wrapped around the [IOError] that [read_url] raised; a failure that is
    not an [Exception] leaves [write_url] as it is. *)
Theorem write_url_fetch_fails (self : MyFile.t) (filepath : str) (s : session)
    (e : exc) :
  mode self = pystr "url" ->
  net (host s) (request_of self) = Failure e ->
  let s' := with_host (log (Requested (request_of self)) (host s)) s in
  (isinstance e Exception = true ->
   exists m,
     read_url_error (path self) e = Raised IOError m
     /\ write_url filepath self s
        = (Thrown (SaveFailed (Inner (Raised IOError m))), s'))
  /\ (isinstance e Exception = false ->
      write_url filepath self s = (Thrown (Inner e), s')).
Proof.
  intros Hm Hn s'. rewrite (write_url_fetch self filepath s e Hm Hn).
  split; intros He.
  - destruct (read_url_error_caught (path self) e He) as [m Hm'].
    exists m. split; [done |]. by rewrite Hm'.
  - rewrite (read_url_error_same _ _ He). cbn [is_a].
    by rewrite He.
Qed.

Lemma write_url_fetch_fails_witness :
  let self := instance "http://a.com/missing" "url" in
  let s := start (failing_world http_404) in
  exists m,
    read_url_error (path self) http_404 = Raised IOError m
    /\ write_url (pystr "page.html") self s
       = (Thrown (SaveFailed (Inner (Raised IOError m))),
          with_host (log (Requested (request_of self)) (host s)) s).
Proof.
  intros self s.
  apply (proj1 (write_url_fetch_fails self (pystr "page.html") s http_404
                  eq_refl eq_refl) eq_refl).
Defined.

(** X17: when the page is fetched and the file may not be written,
    [write_url] raises the [IOError] of line 228 wrapped around the
    [IOError] of the missing permission that [write] raised; the page has
    been requested and no file has changed. *)
Theorem write_url_destination_blocked (self : MyFile.t) (filepath : str)
    (s : session) (content : bytes) (r : bool) (data : bytes) :
  mode self = pystr "url" ->
  net (host s) (request_of self) = Response content ->
  fs (host s) !! filepath = Some (Regular r false data) ->
  write_url filepath self s
  = (Thrown (SaveFailed (Inner (Raised IOError (NoWritePermission filepath)))),
     with_host (log (Requested (request_of self)) (host s)) s).
Proof.
  intros Hm Hn Hp.
  by rewrite (write_url_write_raises self filepath s content _ _ _ Hm Hn
                (write_denied filepath
                   (log (Requested (request_of self)) (host s)) _ r data Hp)).
Qed.

Lemma write_url_destination_blocked_witness :
  let s := start {| platform_of := Posix;
                    fs := {[ pystr "page.html" := Regular true false [] ]};
                    net := fun _ => Response [];
                    trace := [] |} in
  write_url (pystr "page.html") (instance "http://a.com" "url") s
  = (Thrown (SaveFailed (Inner (Raised IOError
                                  (NoWritePermission (pystr "page.html"))))),
     with_host (log (Requested (request_of (instance "http://a.com" "url")))
                  (host s)) s).
Proof.
  intros s.
  apply (write_url_destination_blocked (instance "http://a.com" "url")
           (pystr "page.html") s [] true []); reflexivity.
Defined.

(** X18: [write_url] never returns [False].  Whenever it returns, the
    flag is [True], the object is unchanged and in mode [url], the page was
    fetched, the file could be written and now holds the UTF-8 encoding of
    the text of the page, and the line naming the file has been printed. *)
Theorem write_url_returns (self obj : MyFile.t) (filepath : str)
    (s s' : session) (b : bool) :
  write_url filepath self s = (Done (b, obj), s') ->
  b = true /\ obj = self /\ mode self = pystr "url"
  /\ can_write (fs (host s) !! filepath)
  /\ exists content octets,
       net (host s) (request_of self) = Response content
       /\ Codec.encode_utf8
            (translate_newlines (platform_of (host s)) (decode_content content))
          = Some octets
       /\ fs (host s') !! filepath
          = Some (Regular (readable_after (fs (host s) !! filepath)) true octets)
       /\ screen s' = screen s ++ [saved_line filepath].
Proof.
  intros Hw.
  destruct (decide (mode self = pystr "url")) as [Hm | Hm];
    [| by rewrite (write_url_mode_gate self filepath s Hm) in Hw].
  destruct (net (host s) (request_of self)) as [content | e] eqn:Hn;
    [| by rewrite (write_url_fetch self filepath s e Hm Hn) in Hw].
  assert (can_write (fs (host s) !! filepath)) as Hc.
  { destruct (fs (host s) !! filepath) as [[r [] data | e1 e2] |] eqn:Hp;
      [done | | | done]; exfalso.
    - rewrite (write_url_write_raises self filepath s content _ _ _ Hm Hn
                 (write_denied filepath
                    (log (Requested (request_of self)) (host s)) _ r data Hp))
        in Hw.
      done.
    - destruct (write_unopenable filepath
                  (log (Requested (request_of self)) (host s))
                  (decode_content content) e1 e2 Hp) as (e & [o' w'] & Hwr).
      rewrite (write_url_write_raises self filepath s content _ _ _ Hm Hn Hwr)
        in Hw. done. }
  destruct (page_encodes (platform_of (host s)) content) as [octets He].
  destruct (write_url_ok self filepath s content octets Hm Hn Hc He)
    as (s1 & Hw1 & Hfs & Hsc & _).
  rewrite Hw1 in Hw. injection Hw as <- <- <-.
  split_and!; try done. by exists content, octets.
Qed.

Lemma write_url_returns_witness :
  let s := start (serving_world (ascii_bytes page_abc)) in
  can_write (fs (host s) !! pystr "page.html")
  /\ exists content octets,
       net (host s) (request_of (instance "http://a.com" "url"))
       = Response content
       /\ Codec.encode_utf8
            (translate_newlines (platform_of (host s)) (decode_content content))
          = Some octets
       /\ fs (host (snd (write_url (pystr "page.html")
                           (instance "http://a.com" "url") s)))
          !! pystr "page.html"
          = Some (Regular (readable_after (fs (host s) !! pystr "page.html"))
                    true octets)
       /\ screen (snd (write_url (pystr "page.html")
                         (instance "http://a.com" "url") s))
          = screen s ++ [saved_line (pystr "page.html")].
Proof.
  intros s.
  refine (proj2 (proj2 (proj2
            (write_url_returns (instance "http://a.com" "url")
               (instance "http://a.com" "url") (pystr "page.html") s
               (snd (write_url (pystr "page.html")
                       (instance "http://a.com" "url") s)) true _)))).
  by vm_compute.
Defined.

(** ** The location and the file name that [url_operations] makes up *)

Lemma typed_url_scheme (typed : str) :
  startswith (typed_url typed) (pystr "http://") = true
  \/ startswith (typed_url typed) (pystr "https://") = true.
Proof.
  unfold typed_url.
  destruct (startswith (strip typed) (pystr "http://")) eqn:E1; [by left |].
  destruct (startswith (strip typed) (pystr "https://")) eqn:E2; [by right |].
  right. reflexivity.
Qed.

Lemma typed_url_constructs (typed : str) :
  __init__ (typed_url typed) (pystr "url")
  = Return {| path := typed_url typed; mode := pystr "url"; file := None |}.
Proof.
  unfold __init__. cbn [MyFile.mode]. decide_closed. cbn [andb negb].
  assert (_is_url (typed_url typed) = true) as ->; [| done].
  unfold _is_url, url_patterns. cbn [existsb].
  destruct (typed_url_scheme typed) as [-> | ->]; [done |].
  by rewrite orb_true_r.
Qed.

(** X19: whatever is typed, the location that [url_operations] hands
    to the class starts with [http://] or [https://], so that the
    constructor accepts it in mode [url].  The menu therefore never reaches
    the [ftp://] and [file://] schemes that the class allows: such a
    location gets [https://] put in front of it. *)
Theorem typed_url_accepted (typed : str) :
  (startswith (typed_url typed) (pystr "http://") = true
   \/ startswith (typed_url typed) (pystr "https://") = true)
  /\ __init__ (typed_url typed) (pystr "url")
     = Return {| path := typed_url typed; mode := pystr "url"; file := None |}
  /\ startswith (typed_url typed) (pystr "ftp://") = false
  /\ startswith (typed_url typed) (pystr "file://") = false
  /\ (forall rest,
        strip typed = pystr "ftp://" ++ rest \/ strip typed = pystr "file://" ++ rest ->
        typed_url typed = pystr "https://" ++ strip typed).
Proof.
  assert (exists c rest, typed_url typed = 0x68 :: c :: rest) as (c & rest & Hh).
  { destruct (typed_url_scheme typed) as [H | H];
      apply startswith_spec in H as [rest ->]; by eexists _, _. }
  split_and!.
  - apply typed_url_scheme.
  - apply typed_url_constructs.
  - by rewrite Hh.
  - by rewrite Hh.
  - intros rest' Hr. unfold typed_url.
    destruct Hr as [-> | ->]; reflexivity.
Qed.

Lemma typed_url_accepted_witness :
  typed_url (pystr " ftp://files.example/x ")
  = pystr "https://" ++ strip (pystr " ftp://files.example/x ").
Proof.
  apply (proj2 (proj2 (proj2 (proj2
           (typed_url_accepted (pystr " ftp://files.example/x ")))))
           (pystr "files.example/x")).
  left. vm_compute. reflexivity.
Defined.

Lemma split_from_slash_head s cur :
  0x2F ∉ cur ->
  exists part parts,
    split_from s (pystr "/") 0 cur = part :: parts /\ 0x2F ∉ part.
Proof.
  revert cur. induction s as [|c s IH]; intros cur Hcur.
  - exists cur, []. done.
  - cbn [split_from]. change (pystr "/") with [0x2F].
    cbn [startswith]. destruct (N.eqb_spec 0x2F c) as [<- | Hc].
    + cbn [andb]. by eexists _, _.
    + cbn [andb]. apply IH. rewrite not_elem_of_app, not_elem_of_cons.
      split_and!; [done | done | apply not_elem_of_nil].
Qed.

(** X20: the file name that [url_operations] makes up when none is
    typed has no slash: the page is saved in the current directory,
    whatever the location. *)
Theorem default_save_path_flat (url : str) :
  exists domain,
    default_save_path url = domain ++ pystr "_content.html"
    /\ 0x2F ∉ domain.
Proof.
  unfold default_save_path, split.
  destruct (split_from_slash_head
              (default [] (last (split_from url (pystr "//") 0 []))) [])
    as (part & parts & -> & Hpart); [apply not_elem_of_nil |].
  by exists part.
Qed.

(** ** [file_operations] and [url_operations] *)

Ltac console :=
  unfold say, input, throw, construct, mbind, P_bind, mret, P_ret,
    with_keys, with_host, shown;
  cbn [keys screen host fst snd].

Lemma mode_map_None choice :
  choice ∉ [pystr "1"; pystr "2"; pystr "3"] -> mode_map !! choice = None.
Proof.
  rewrite !not_elem_of_cons. intros (H1 & H2 & H3 & _). unfold mode_map.
  rewrite !lookup_insert_ne by done. by apply lookup_singleton_ne.
Qed.

(** X21: when the mode typed in [file_operations] is, once stripped,
    none of 1, 2 and 3, the function prints the line of the wrong choice
    and returns: it has read the two lines only, no object is built and the
    platform is untouched. *)
Theorem file_operations_bad_choice (s : session) (p c : str) (rest : list key) :
  keys s = Typed p :: Typed c :: rest ->
  strip c ∉ [pystr "1"; pystr "2"; pystr "3"] ->
  exists s',
    file_operations s = (Done tt, s')
    /\ host s' = host s
    /\ keys s' = rest
    /\ last (screen s')
       = Some (Print [Str (utf8 "Ошибка: неверный выбор режима")]).
Proof.
  destruct s as [ks sc w]. cbn [keys host]. intros -> Hc.
  unfold file_operations. console. rewrite (mode_map_None _ Hc). console.
  eexists. split_and!; try reflexivity. cbn [screen]. apply last_snoc.
Qed.

Lemma file_operations_bad_choice_witness :
  let s := session_of ["notes.txt"; "4"; "left"]%string (empty_world Posix) in
  exists s',
    file_operations s = (Done tt, s')
    /\ host s' = host s
    /\ keys s' = [Typed (pystr "left")]
    /\ last (screen s')
       = Some (Print [Str (utf8 "Ошибка: неверный выбор режима")]).
Proof.
  intros s.
  apply (file_operations_bad_choice s (pystr "notes.txt") (pystr "4")
           [Typed (pystr "left")]); [reflexivity |].
  apply (bool_decide_unpack _). vm_compute. reflexivity.
Defined.

(** X22: reading a file from the menu.  With the choice 1,
    [file_operations] reads the two lines only and changes no file.  When
    [read] returns, the text is printed, followed by the closing rule; when
    [read] raises an [Exception], the function still returns and the last
    line printed reports that exception. *)
Theorem file_operations_reads (s : session) (p c : str) (rest : list key) :
  keys s = Typed p :: Typed c :: rest ->
  strip c = pystr "1" ->
  let file_obj := {| path := strip p; mode := pystr "read"; file := None |} in
  let s' := snd (file_operations s) in
  keys s' = rest
  /\ fs (host s') = fs (host s)
  /\ (forall text,
        fst (read (file_obj, host s)) = Return text ->
        fst (file_operations s) = Done tt
        /\ exists before,
             screen s'
             = before ++ [Print [Str text]; Print [Str (replicate 40 0x3D)]])
  /\ (forall e,
        fst (read (file_obj, host s)) = Raise e ->
        isinstance e Exception = true ->
        fst (file_operations s) = Done tt
        /\ last (screen s') = Some (error_line (Inner e))).
Proof.
  destruct s as [ks sc w]. cbn [keys host]. intros -> Hc. cbn zeta.
  pose proof (proj1 (read_effects
                       {| path := strip p; mode := pystr "read"; file := None |}
                       w eq_refl)) as Hfs.
  unfold after in Hfs.
  unfold file_operations. console. rewrite Hc.
  change (mode_map !! pystr "1") with (Some (pystr "read")).
  unfold attempt; console; decide_closed; cbn iota.
  change (__init__ (strip p) (pystr "read"))
    with (Return {| path := strip p; mode := pystr "read"; file := None |}).
  cbn iota. unfold call. cbn [host].
  destruct (read _) as [[text | e] [obj' w']]; cbn [fst snd] in *; console.
  - split; [reflexivity |]. split; [exact Hfs |]. split.
    + intros ? [= <-]. split; [reflexivity |]. eexists.
      rewrite <- (app_assoc _ [Print [Str text]]). reflexivity.
    + intros ? [=].
  - cbn [select]. change (is_a (Inner e) (Builtin Exception))
      with (isinstance e Exception).
    destruct (isinstance e Exception) eqn:He; console;
      (split; [reflexivity |]); (split; [exact Hfs |]);
      (split; [intros ? [=] |]); intros ? [= <-] Hx;
      [| congruence].
    split; [reflexivity |]. apply last_snoc.
Qed.

Lemma file_operations_reads_witness :
  let s := session_of ["notes.txt"; "1"]%string (empty_world Posix) in
  fst (file_operations s) = Done tt
  /\ last (screen (snd (file_operations s)))
     = Some (error_line
               (Inner (Raised IOError (FileNotFound (strip (pystr "notes.txt")))))).
Proof.
  intros s.
  apply (proj2 (proj2 (proj2
           (file_operations_reads s (pystr "notes.txt") (pystr "1") []
              eq_refl eq_refl)))); by vm_compute.
Defined.

(** The loop that reads the text: the lines up to the first one that ends
    the text, each stripped. *)
Lemma read_lines_collects ls :
  forall fuel line_num acc rest sc w stop,
    Forall (fun typed => ~ ends_text typed) ls ->
    ends_text stop ->
    (length ls <= fuel)%nat ->
    read_lines fuel line_num acc
      {| keys := map Typed ls ++ Typed stop :: rest; screen := sc; host := w |}
    = (Done (acc ++ map strip ls),
       {| keys := rest;
          screen := sc ++ map line_prompt (seq line_num (S (length ls)));
          host := w |}).
Proof.
  induction ls as [|l ls IH]; intros fuel n acc rest sc w stop Hls Hstop Hfuel.
  - cbn [map app length seq]. destruct fuel; cbn [read_lines]; console;
      (rewrite (proj2 (orb_true_iff _ _)) by
          (destruct Hstop as [H | H]; [left | right]; by apply bool_decide_eq_true_2));
      by rewrite app_nil_r.
  - inversion Hls as [|? ? Hl Hrest]; subst.
    destruct fuel as [|fuel]; [cbn in Hfuel; lia |].
    cbn [read_lines map app]. console.
    rewrite (proj2 (orb_false_iff _ _)).
    + rewrite (IH fuel (S n) (acc ++ [strip l]) rest _ w stop Hrest Hstop)
        by (cbn in Hfuel; lia).
      cbn [length seq map]. rewrite <- !app_assoc. reflexivity.
    + unfold ends_text in Hl.
      split; apply bool_decide_eq_false_2; intros H; apply Hl; tauto.
Qed.

(** X23: writing a file from the menu.  With the choice 2 or 3,
    [file_operations] takes the lines typed up to the first that is blank
    or is the word END in any case, strips each, joins them with line feeds
    and hands the text to one [write] in mode [write] or [append] on the
    stripped path: the platform is left as that call leaves it, and the
    lines after the closing one stay on the keyboard.  White space around a
    line, and a last line end, are therefore never written. *)
Theorem file_operations_writes (s : session) (p c stop : str) (ls : list str)
    (rest : list key) (mode : str) :
  keys s = Typed p :: Typed c :: map Typed ls ++ Typed stop :: rest ->
  (strip c = pystr "2" /\ mode = pystr "write")
  \/ (strip c = pystr "3" /\ mode = pystr "append") ->
  Forall (fun typed => ~ ends_text typed) ls ->
  ends_text stop ->
  let content := join [LF] (map strip ls) in
  let file_obj := {| path := strip p; mode := mode; file := None |} in
  let s' := snd (file_operations s) in
  keys s' = rest
  /\ host s' = after (write content (file_obj, host s)).
Proof.
  destruct s as [ks sc w]. cbn [keys host]. intros -> Hc Hls Hstop.
  cbn zeta. unfold file_operations. console.
  destruct Hc as [[-> ->] | [-> ->]].
  all: change (mode_map !! pystr _) with (Some (pystr "write"))
       || change (mode_map !! pystr _) with (Some (pystr "append")).
  all: unfold attempt; console; decide_closed; cbn iota.
  all: change (__init__ (strip p) (pystr "write"))
         with (Return {| path := strip p; mode := pystr "write"; file := None |})
       || change (__init__ (strip p) (pystr "append"))
            with (Return {| path := strip p; mode := pystr "append";
                            file := None |}).
  all: cbn iota; cbn [keys screen host].
  all: unfold typed_lines; cbn [keys];
    rewrite (read_lines_collects ls _ 1%nat [] rest _ w stop Hls Hstop)
      by (rewrite length_app, length_map; lia).
  all: cbn [app]; unfold call; cbn [host]; unfold after, with_host.
  all: destruct (write _ _) as [[[] | e] [obj' w']]; console;
       try (cbn [select]; destruct (is_a (Inner e) (Builtin Exception));
            console);
       done.
Qed.

Lemma file_operations_writes_witness :
  let s := session_of ["notes.txt"; " 2 "; "  first"; "second  "; "end"; "left"]%string
             (empty_world Posix) in
  let s' := snd (file_operations s) in
  keys s' = [Typed (pystr "left")]
  /\ host s'
     = after (write (join [LF] (map strip [pystr "  first"; pystr "second  "]))
                ({| path := strip (pystr "notes.txt"); mode := pystr "write";
                    file := None |}, host s)).
Proof.
  intros s.
  apply (file_operations_writes s (pystr "notes.txt") (pystr " 2 ") (pystr "end")
           [pystr "  first"; pystr "second  "] [Typed (pystr "left")]
           (pystr "write")).
  - reflexivity.
  - left. split; reflexivity.
  - repeat constructor; unfold ends_text; vm_compute; intros [H | H]; discriminate H.
  - right. reflexivity.
Defined.

(** X24: counting links from the menu.  With the operation 2,
    [url_operations] returns after the two lines and its last line gives a
    number: for a page that is fetched, the number of distinct links found
    in its text; for a fetch that fails with an [Exception], 0, printed as
    a success. *)
Theorem url_operations_counts (s : session) (t op : str) (rest : list key) :
  keys s = Typed t :: Typed op :: rest ->
  strip op = pystr "2" ->
  let url := typed_url t in
  let url_obj := {| path := url; mode := pystr "url"; file := None |} in
  let found_line (n : nat) :=
    Print [Str ([LF] ++ utf8 "✓ На странице '" ++ url ++ utf8 "' найдено "
                ++ decimal n ++ utf8 " URL-адресов")] in
  (forall content,
     net (host s) (request_of url_obj) = Response content ->
     exists s',
       url_operations s = (Done tt, s')
       /\ keys s' = rest
       /\ last (screen s')
          = Some (found_line
                    (length (remove_dups (found (decode_content content))))))
  /\ (forall e,
        net (host s) (request_of url_obj) = Failure e ->
        isinstance e Exception = true ->
        exists s',
          url_operations s = (Done tt, s')
          /\ keys s' = rest
          /\ last (screen s') = Some (found_line 0%nat)).
Proof.
  destruct s as [ks sc w]. cbn [keys host]. intros -> Hop. cbn zeta.
  pose proof (typed_url_constructs t) as Hinit.
  split.
  - intros content Hn.
    pose proof (count_urls_ok
                  {| path := typed_url t; mode := pystr "url"; file := None |}
                  w content eq_refl Hn) as Hc.
    rewrite collect_urls_found, size_list_to_set_remove_dups in Hc.
    unfold url_operations, attempt. console. rewrite Hinit. cbn iota.
    console. rewrite Hop. decide_closed. cbn iota. unfold call. cbn [host].
    rewrite Hc. console. eexists. split_and!; try reflexivity.
    cbn [screen]. apply last_snoc.
  - intros e Hn He.
    destruct (read_url_error_caught (typed_url t) e He) as [m Hm].
    pose proof (count_urls_fails
                  {| path := typed_url t; mode := pystr "url"; file := None |}
                  w e m eq_refl Hn Hm) as Hc.
    unfold url_operations, attempt. console. rewrite Hinit. cbn iota.
    console. rewrite Hop. decide_closed. cbn iota. unfold call. cbn [host].
    rewrite Hc. console. eexists. split_and!; try reflexivity.
    cbn [screen]. apply last_snoc.
Qed.

Lemma url_operations_counts_witness :
  let s := session_of ["a.com/missing"; "2"]%string (failing_world http_404) in
  exists s',
    url_operations s = (Done tt, s')
    /\ keys s' = []
    /\ last (screen s')
       = Some (Print [Str ([LF] ++ utf8 "✓ На странице '"
                           ++ typed_url (pystr "a.com/missing")
                           ++ utf8 "' найдено " ++ decimal 0%nat
                           ++ utf8 " URL-адресов")]).
Proof.
  intros s.
  apply (proj2 (url_operations_counts s (pystr "a.com/missing") (pystr "2") []
                  eq_refl eq_refl) http_404); reflexivity.
Defined.



Lemma attempt_catches {X} (body : P X) (h : raised -> P X) s r s' :
  only_prints h ->
  attempt body [(Builtin Exception, h)] s = (Thrown r, s') ->
  is_a r Exception = false.
Proof.
  intros Hh. unfold attempt. destruct (body s) as [[x | e] s0]; [done |].
  cbn [select]. change (is_a e Exception) with (is_a e (Builtin Exception)).
  destruct (is_a e (Builtin Exception)) eqn:E.
  - destruct (Hh e s0) as (x & s1 & ->). done.
  - by intros [= <- _].
Qed.

(** X26: once the lines asked for before the [try] have been typed (the
    path and the mode for [file_operations], the location for
    [url_operations]), no [Exception] leaves either function: whatever the
    class raises is reported on the console.  What does leave them is not
    an [Exception], as the [KeyboardInterrupt] of the interrupt key. *)
Theorem operations_report_errors (s s' : session) (r : raised) :
  (forall p c rest,
     keys s = Typed p :: Typed c :: rest ->
     file_operations s = (Thrown r, s') -> is_a r Exception = false)
  /\ (forall t rest,
        keys s = Typed t :: rest ->
        url_operations s = (Thrown r, s') -> is_a r Exception = false).
Proof.
  destruct s as [ks sc w]. cbn [keys]. split.
  - intros p c rest ->. unfold file_operations. console.
    destruct (mode_map !! strip c) as [mode |]; [| done].
    apply attempt_catches. intros e s0. by eexists _, _.
  - intros t rest ->. unfold url_operations. console.
    apply attempt_catches. intros e s0. by eexists _, _.
Qed.

Lemma operations_report_errors_witness :
  fst (file_operations interrupted_session) = Thrown interrupt
  /\ is_a interrupt Exception = false.
Proof.
  split; [by vm_compute |].
  apply (proj1 (operations_report_errors interrupted_session
                  (snd (file_operations interrupted_session)) interrupt)
           (pystr "notes.txt") (pystr "2") [CtrlC] eq_refl).
  by vm_compute.
Defined.

(** ** The loops never run out of fuel *)

Lemma read_lines_fuel fuel1 :
  forall fuel2 line_num lines s,
    (length (keys s) <= fuel1)%nat -> (length (keys s) <= fuel2)%nat ->
    read_lines fuel1 line_num lines s = read_lines fuel2 line_num lines s.
Proof.
  induction fuel1 as [|fuel1 IH]; intros fuel2 n lines [ks sc w];
    cbn [keys]; intros H1 H2.
  - destruct ks; [| cbn in H1; lia].
    destruct fuel2; reflexivity.
  - destruct fuel2 as [|fuel2].
    { destruct ks; [reflexivity | cbn in H2; lia]. }
    cbn [read_lines]. console. destruct ks as [|[l |] ks]; [done | | done].
    destruct (_ || _); [done |].
    apply IH; cbn [keys]; cbn in H1, H2; lia.
Qed.

Lemma takes_ret {X} (x : X) : takes_keys (mret x).
Proof. intros s r s' [= _ <-]. done. Qed.

Lemma takes_throw {X} e : takes_keys (throw (X := X) e).
Proof. intros s r s' [= _ <-]. done. Qed.

Lemma takes_say text : takes_keys (say text).
Proof. intros s r s' [= _ <-]. done. Qed.

Lemma takes_input prompt : takes_keys (input prompt).
Proof.
  intros [ks sc w] r s'. unfold input. cbn [keys].
  destruct ks as [|[l |] ks]; intros [= _ <-]; cbn; lia.
Qed.

Lemma takes_construct path mode : takes_keys (construct path mode).
Proof.
  intros s r s'. unfold construct.
  destruct (__init__ path mode); intros [= _ <-]; done.
Qed.

Lemma takes_call {X} obj (method : M state X) : takes_keys (call obj method).
Proof.
  intros s r s'. unfold call.
  destruct (method (obj, host s)) as [[x | e] [obj' w']]; intros [= _ <-]; done.
Qed.

Lemma takes_bind {X Y} (c : P X) (k : X -> P Y) :
  takes_keys c -> (forall x, takes_keys (k x)) -> takes_keys (c ≫= k).
Proof.
  intros Hc Hk s r s'. unfold mbind, P_bind.
  destruct (c s) as [[x | e] s0] eqn:E.
  - intros H. apply Hk in H. apply Hc in E. lia.
  - intros [= _ <-]. by apply Hc in E.
Qed.

Lemma takes_attempt {X} (body : P X) (h : raised -> P X) c :
  takes_keys body -> (forall e, takes_keys (h e)) ->
  takes_keys (attempt body [(c, h)]).
Proof.
  intros Hb Hh s r s'. unfold attempt.
  destruct (body s) as [[x | e] s0] eqn:E.
  - intros [= _ <-]. by apply Hb in E.
  - cbn [select]. destruct (is_a e c).
    + intros H. apply Hh in H. apply Hb in E. lia.
    + intros [= _ <-]. by apply Hb in E.
Qed.

Lemma takes_read_lines fuel :
  forall line_num lines, takes_keys (read_lines fuel line_num lines).
Proof.
  induction fuel as [|fuel IH]; intros n lines; cbn [read_lines];
    (apply takes_bind; [apply takes_input |]); intros typed; cbn zeta;
    destruct (_ || _); try apply takes_ret. apply IH.
Qed.

Lemma takes_typed_lines : takes_keys typed_lines.
Proof. intros s r s'. unfold typed_lines. apply takes_read_lines. Qed.

Ltac takes :=
  repeat first
    [ apply takes_ret | apply takes_say | apply takes_input | apply takes_throw
    | apply takes_construct | apply takes_call | apply takes_typed_lines
    | apply takes_attempt; [| intros ?]
    | apply takes_bind; [| intros ?]
    | progress cbn zeta
    | match goal with
      | |- takes_keys (if ?b then _ else _) => destruct b
      | |- takes_keys (match ?x with _ => _ end) => destruct x
      | |- takes_keys (let '(_, _) := ?x in _) => destruct x
      end ].

Lemma takes_write_url filepath self : takes_keys (write_url filepath self).
Proof. unfold write_url. takes. Qed.

Lemma takes_file_operations : takes_keys file_operations.
Proof. unfold file_operations. takes. Qed.

Lemma takes_url_operations : takes_keys url_operations.
Proof.
  unfold url_operations. takes. all: try apply takes_write_url. all: takes.
Qed.

Lemma takes_display_menu : takes_keys display_menu.
Proof. unfold display_menu. takes. Qed.

Lemma bind_ext_on {X Y} (c : P X) (k1 k2 : X -> P Y) s :
  (forall x s', c s = (Done x, s') -> k1 x s' = k2 x s') ->
  (c ≫= k1) s = (c ≫= k2) s.
Proof.
  intros H. unfold mbind, P_bind. destruct (c s) as [[x | e] s'] eqn:E;
    [by apply H | done].
Qed.

Lemma bind_done_inv {X Y} (c : P X) (k : X -> P Y) s y s' :
  (c ≫= k) s = (Done y, s') ->
  exists x s1, c s = (Done x, s1) /\ k x s1 = (Done y, s').
Proof.
  unfold mbind, P_bind. destruct (c s) as [[x | e] s1]; [eauto | done].
Qed.

Lemma input_consumes prompt s x s' :
  input prompt s = (Done x, s') -> (length (keys s') < length (keys s))%nat.
Proof.
  destruct s as [ks sc w]. unfold input. cbn [keys].
  destruct ks as [|[l |] ks]; intros [= _ <-]; cbn; lia.
Qed.

(** One turn of the loop of [main], followed by what the fuel allows. *)
Lemma main_loop_turn fuel :
  main_loop fuel
  = (display_menu;;
     typed ← input ([LF] ++ utf8 "Выберите действие (1-3): ");
     let choice := strip typed in
     let again : P unit :=
       input ([LF] ++ utf8 "Нажмите Enter для продолжения...");;
       match fuel with S f => main_loop f | O => mret tt end in
     if bool_decide (choice = pystr "1") then file_operations;; again
     else if bool_decide (choice = pystr "2") then url_operations;; again
     else if bool_decide (choice = pystr "3") then
       say [Str ([LF] ++ utf8 "До свидания!")]
     else
       say [Str ([LF] ++ utf8 "Ошибка: введите число от 1 до 3")];;
       again).
Proof. by destruct fuel. Qed.

(** Any fuel that is at least the number of keys left gives the same run
    of the loop of [main]: the loop of the source, which has no bound, is
    the run with the number of keys as fuel. *)
Lemma main_loop_fuel fuel1 :
  forall fuel2 s,
    (length (keys s) <= fuel1)%nat -> (length (keys s) <= fuel2)%nat ->
    main_loop fuel1 s = main_loop fuel2 s.
Proof.
  induction fuel1 as [fuel1 IH] using lt_wf_ind. intros fuel2 s H1 H2.
  assert (forall s0,
            (length (keys s0) < length (keys s))%nat ->
            match fuel1 with S f => main_loop f | O => mret tt end s0
            = match fuel2 with S f => main_loop f | O => mret tt end s0)
    as Hnext.
  { intros s0 Hs0. destruct fuel1 as [|f1]; [lia |].
    destruct fuel2 as [|f2]; [lia |]. apply IH; lia. }
  clear IH H1 H2. rewrite !main_loop_turn.
  set (n1 := match fuel1 with S f => main_loop f | O => mret tt end) in *.
  set (n2 := match fuel2 with S f => main_loop f | O => mret tt end) in *.
  clearbody n1 n2.
  apply bind_ext_on; intros [] s1 Hd; apply takes_display_menu in Hd.
  apply bind_ext_on; intros typed s2 Hi; apply input_consumes in Hi.
  cbv zeta.
  assert (forall s0, (length (keys s0) <= length (keys s2))%nat ->
            (input ([LF] ++ utf8 "Нажмите Enter для продолжения...");; n1) s0
            = (input ([LF] ++ utf8 "Нажмите Enter для продолжения...");; n2) s0)
    as Hagain.
  { intros s0 Hs0. apply bind_ext_on. intros x s3 Hi3.
    apply input_consumes in Hi3. apply Hnext. lia. }
  destruct (bool_decide _).
  { apply bind_ext_on; intros [] s3 Hop. apply takes_file_operations in Hop.
    by apply Hagain. }
  destruct (bool_decide _).
  { apply bind_ext_on; intros [] s3 Hop. apply takes_url_operations in Hop.
    by apply Hagain. }
  destruct (bool_decide _); [reflexivity |].
  apply bind_ext_on; intros [] s3 Hop. apply takes_say in Hop.
  by apply Hagain.
Qed.

(** ** [main] and the program *)

Lemma main_loop_returns fuel :
  forall s s',
    (length (keys s) <= fuel)%nat ->
    main_loop fuel s = (Done tt, s') ->
    last (screen s') = Some farewell.
Proof.
  induction fuel as [fuel IH] using lt_wf_ind. intros s s' Hfuel Hrun.
  assert (forall s0,
            (length (keys s0) < length (keys s))%nat ->
            match fuel with S f => main_loop f | O => mret tt end s0
            = (Done tt, s') ->
            last (screen s') = Some farewell) as Hnext.
  { intros s0 Hs0 H0. destruct fuel as [|f]; [lia |].
    apply (IH f) in H0; [done | lia | lia]. }
  assert (forall s0,
            (length (keys s0) <= length (keys s))%nat ->
            (input ([LF] ++ utf8 "Нажмите Enter для продолжения...");;
             match fuel with S f => main_loop f | O => mret tt end) s0
            = (Done tt, s') ->
            last (screen s') = Some farewell) as Hagain.
  { intros s0 Hs0 H0. apply bind_done_inv in H0 as (x & s1 & Hi & H1).
    apply input_consumes in Hi. apply (Hnext s1); [lia | done]. }
  clear IH Hnext. rewrite main_loop_turn in Hrun.
  apply bind_done_inv in Hrun as ([] & s1 & Hd & Hrun).
  apply takes_display_menu in Hd.
  apply bind_done_inv in Hrun as (typed & s2 & Hi & Hrun).
  apply input_consumes in Hi. cbv zeta in Hrun.
  destruct (bool_decide _).
  { apply bind_done_inv in Hrun as ([] & s3 & Hop & Hrun).
    apply takes_file_operations in Hop. apply (Hagain s3); [lia | done]. }
  destruct (bool_decide _).
  { apply bind_done_inv in Hrun as ([] & s3 & Hop & Hrun).
    apply takes_url_operations in Hop. apply (Hagain s3); [lia | done]. }
  destruct (bool_decide _).
  { injection Hrun as <-. cbn [shown screen]. apply last_snoc. }
  apply bind_done_inv in Hrun as ([] & s3 & Hop & Hrun).
  apply takes_say in Hop. apply (Hagain s3); [lia | done].
Qed.

Lemma main_done (s s' : session) :
  main s = (Done tt, s') ->
  exists s0, main_loop (length (keys s0)) s0 = (Done tt, s').
Proof.
  unfold main. intros H.
  apply bind_done_inv in H as ([] & s1 & _ & H).
  apply bind_done_inv in H as ([] & s2 & _ & H).
  apply bind_done_inv in H as ([] & s3 & _ & H).
  by exists s3.
Qed.

(** X27: [main] returns only through the choice 3: whenever it returns,
    the last thing on the console is the farewell line.  Every other way
    out of the loop is an exception, as the [EOFError] of [input] when the
    keyboard gives no more lines. *)
Theorem main_returns (s s' : session) :
  main s = (Done tt, s') -> last (screen s') = Some farewell.
Proof.
  intros H. apply main_done in H as [s0 H].
  by apply main_loop_returns in H.
Qed.

Lemma main_returns_witness :
  last (screen (snd (main (session_of ["7"; "x"; "3"]%string (empty_world Posix)))))
  = Some farewell.
Proof.
  apply (main_returns (session_of ["7"; "x"; "3"]%string (empty_world Posix))).
  by vm_compute.
Defined.

(** X28: the ways the program ends.  When it ends without an exception,
    the last line on the console is the farewell of the choice 3, or the
    line of the interrupt key, or the line of an unexpected error, which
    reports an [Exception].  An exception that leaves the program is
    neither a [KeyboardInterrupt] nor an [Exception]. *)
Theorem program_endings (s : session) :
  match program s with
  | (Done _, s') =>
    last (screen s') = Some farewell
    \/ last (screen s') = Some interrupted_line
    \/ exists e,
         is_a e Exception = true /\ last (screen s') = Some (unexpected_line e)
  | (Thrown e, _) => is_a e KeyboardInterrupt = false /\ is_a e Exception = false
  end.
Proof.
  unfold program, attempt.
  destruct (main s) as [[[] | e] s0] eqn:Hmain.
  - left. apply main_done in Hmain as [s1 H].
    by apply main_loop_returns in H.
  - cbn [select].
    change (is_a e KeyboardInterrupt) with (is_a e (Builtin KeyboardInterrupt)).
    change (is_a e Exception) with (is_a e (Builtin Exception)).
    destruct (is_a e (Builtin KeyboardInterrupt)) eqn:E1.
    { right; left. cbn [say shown screen]. apply last_snoc. }
    destruct (is_a e (Builtin Exception)) eqn:E2; [| done].
    right; right. exists e. split; [done |]. cbn [say shown screen].
    apply last_snoc.
Qed.

(** When the keyboard gives no more lines, the program reports the
    [EOFError] of [input] as an unexpected error. *)
Remark program_end_of_input :
  let s' := snd (program (session_of ["7"]%string (empty_world Posix))) in
  fst (program (session_of ["7"]%string (empty_world Posix))) = Done tt
  /\ last (screen s') = Some (unexpected_line EndOfInput).
Proof. by vm_compute. Qed.
